(** * dteslafanctl: GPU-driven fan control for Dell servers

    A shallow embedding of [main.py]: the fan curve table and its lookup
    ([ipmi_set_static_fan_speed]), the per-tick telemetry drain, the
    hysteresis state machine of the decision loop and the terminal hand-back,
    followed by the properties of the specification that concern them.

    Conventions.
    - Python [int] values are [Z]; strings are [string].
    - A [numpy.float64] is represented by the rational it denotes ([Q]): the
      program only compares table keys, truncates them with [int(...)] and
      copies speeds, all of which are exact on the denoted value.  NaN and
      infinities are not represented.
    - [numpy.geomspace] is library code computed in binary64 with [log10] and
      [power]; it is a Section variable described by the facts the program
      relies on.
    - Exceptions are values of [py_exception]; a computation that may raise
      returns a [result].
    - The hardware sink ([ipmitool]) and the clock are inputs of each tick;
      the commands issued are collected in a trace. *)

From Stdlib Require Import ZArith QArith List Sorted String Ascii Bool Lia.
Import ListNotations.

Open Scope Z_scope.

(** ** Exceptions and results *)

Inductive py_exception : Type :=
| IndexError
| KeyError
| ValueError.

Inductive result (A : Type) : Type :=
| OK (a : A)
| Raise (e : py_exception).

Arguments OK {A} a.
Arguments Raise {A} e.

Definition bind {A B : Type} (r : result A) (k : A -> result B) : result B :=
  match r with
  | OK a => k a
  | Raise e => Raise e
  end.

Notation "x <- r ;; k" := (bind r (fun x => k))
  (at level 61, r at next level, right associativity).

(** ** Python string primitives used by the drain *)

(** [s.split(sep)] for a one-character separator: never returns an empty list. *)
Fixpoint split_on (sep : ascii) (s : string) : list string :=
  match s with
  | EmptyString => [EmptyString]
  | String c rest =>
      if Ascii.eqb c sep then EmptyString :: split_on sep rest
      else match split_on sep rest with
           | [] => [String c EmptyString]
           | w :: ws => String c w :: ws
           end
  end.

Definition char_in (chars : list ascii) (c : ascii) : bool :=
  existsb (Ascii.eqb c) chars.

Fixpoint lstrip (chars : list ascii) (s : string) : string :=
  match s with
  | EmptyString => EmptyString
  | String c rest => if char_in chars c then lstrip chars rest else s
  end.

Fixpoint rstrip (chars : list ascii) (s : string) : string :=
  match s with
  | EmptyString => EmptyString
  | String c rest =>
      match rstrip chars rest with
      | EmptyString => if char_in chars c then EmptyString else String c EmptyString
      | r => String c r
      end
  end.

(** [s.strip(chars)] *)
Definition strip (chars : list ascii) (s : string) : string :=
  rstrip chars (lstrip chars s).

Definition space : ascii := " "%char.
Definition newline : ascii := ascii_of_nat 10.
Definition comma : ascii := ","%char.

(** The characters [int(...)] skips around the digits of an ASCII string:
    the blank and the control characters tab to carriage return. *)
Definition py_whitespace : list ascii :=
  space :: map ascii_of_nat [9; 10; 11; 12; 13]%nat.

Definition digit_of (c : ascii) : option Z :=
  let n := Z.of_N (N_of_ascii c) in
  if (48 <=? n) && (n <=? 57) then Some (n - 48) else None.

(** Decimal digits with single underscores allowed between digits. *)
Fixpoint py_digits (acc : Z) (after_digit : bool) (s : string) : option Z :=
  match s with
  | EmptyString => if after_digit then Some acc else None
  | String c rest =>
      match digit_of c with
      | Some d => py_digits (10 * acc + d) true rest
      | None =>
          if Ascii.eqb c "_"%char && after_digit then py_digits acc false rest
          else None
      end
  end.

(** [int(s)] on an ASCII string, base 10; [None] stands for [ValueError].
    The limit on the number of digits (4300 by default) and digits outside
    ASCII are not modelled. *)
Definition py_int (s : string) : option Z :=
  match strip py_whitespace s with
  | String "+"%char r => py_digits 0 false r
  | String "-"%char r => option_map Z.opp (py_digits 0 false r)
  | r => py_digits 0 false r
  end.

Definition int_of_str (s : string) : result Z :=
  match py_int s with
  | Some z => OK z
  | None => Raise ValueError
  end.

(** [xs[i]] on a list. *)
Definition index {A : Type} (xs : list A) (i : nat) : result A :=
  match nth_error xs i with
  | Some x => OK x
  | None => Raise IndexError
  end.

(** [x in xs] for strings. *)
Definition str_in (x : string) (xs : list string) : bool :=
  existsb (String.eqb x) xs.

(** ** Configuration *)

(** The [runtime_params] dictionary (lines 11-19), one field per key. *)
Record runtime_params : Type := {
  gpu_max_temp_threshold : Z;
  gpu_min_fan_speed_target : Z;
  gpu_idle_temp_target : Z;
  gpu_auto_handoff_interval : Z;
  gpu_idle_condition_threshold : Z;
  gpu_activate_fan_control_threshold : Z;
  ignore_gpus : option string
}.

Definition default_params : runtime_params :=
  {| gpu_max_temp_threshold := 80;
     gpu_min_fan_speed_target := 50;
     gpu_idle_temp_target := 45;
     gpu_auto_handoff_interval := 10;
     gpu_idle_condition_threshold := 0;
     gpu_activate_fan_control_threshold := -1;
     ignore_gpus := None |}.

(** Lines 177-178: the sentinel [-1] selects idle target + 10. *)
Definition resolve_activate_threshold (p : runtime_params) : runtime_params :=
  if gpu_activate_fan_control_threshold p =? -1 then
    {| gpu_max_temp_threshold := gpu_max_temp_threshold p;
       gpu_min_fan_speed_target := gpu_min_fan_speed_target p;
       gpu_idle_temp_target := gpu_idle_temp_target p;
       gpu_auto_handoff_interval := gpu_auto_handoff_interval p;
       gpu_idle_condition_threshold := gpu_idle_condition_threshold p;
       gpu_activate_fan_control_threshold := gpu_idle_temp_target p + 10;
       ignore_gpus := ignore_gpus p |}
  else p.

(** Lines 180-184: the ignore list keeps the index strings, stripped of blanks. *)
Definition parse_ignored_gpus (p : runtime_params) : list string :=
  match ignore_gpus p with
  | None => []
  | Some s => map (strip [space]) (split_on comma s)
  end.

(** Lines 33-40: both tools must be found by [which]. *)
Definition check_dependencies (use_which : string -> bool) : bool :=
  forallb use_which ["ipmitool"%string; "nvidia-smi"%string].

(** ** Fan curve *)

(** [int(x)] on a float: truncation toward zero. *)
Definition float_int (x : Q) : Z := Z.quot (Qnum x) (Z.pos (Qden x)).

(** [levels_dict]: an insertion-ordered dictionary from temperature
    breakpoints to fan speeds.  Keys are compared as floats are.  The
    table holds finite floats only: a breakpoint that is NaN or infinite,
    on which [int(k)] of line 156 raises, is outside this type. *)
Definition levels : Type := list (Q * Q).

(** [d[k] = v]: an existing key keeps its place, a new key goes last. *)
Fixpoint dict_set (d : levels) (k v : Q) : levels :=
  match d with
  | [] => [(k, v)]
  | (k', v') :: rest =>
      if Qeq_bool k' k then (k', v) :: rest else (k', v') :: dict_set rest k v
  end.

(** [d[k]]; [None] stands for [KeyError]. *)
Fixpoint dict_get (d : levels) (k : Q) : option Q :=
  match d with
  | [] => None
  | (k', v') :: rest => if Qeq_bool k' k then Some v' else dict_get rest k
  end.

(** Lines 199-203: [while i < 512: levels_dict[temp_levels[i]] = fan_levels[i]].
    [fuel] is the number of iterations left. *)
Fixpoint fill_levels (fuel i : nat) (temp_levels fan_levels : list Q)
  (levels_dict : levels) : result levels :=
  match fuel with
  | O => OK levels_dict
  | S fuel' =>
      key <- index temp_levels i ;;
      speed <- index fan_levels i ;;
      fill_levels fuel' (S i) temp_levels fan_levels (dict_set levels_dict key speed)
  end.

Definition num_levels : nat := 512.

Definition build_levels (temp_levels fan_levels : list Q) : result levels :=
  fill_levels num_levels 0 temp_levels fan_levels [].

(** Line 156: [next(filter(lambda k: temperature <= int(k), levels), None)]. *)
Definition first_breakpoint (d : levels) (temperature : Z) : option Q :=
  option_map fst (find (fun kv => temperature <=? float_int (fst kv)) d).

(** [list(levels.items())[-1]] *)
Fixpoint last_item (d : levels) : result (Q * Q) :=
  match d with
  | [] => Raise IndexError
  | [kv] => OK kv
  | _ :: rest => last_item rest
  end.

(** Lines 156-161: the speed chosen for a temperature. *)
Definition lookup_speed (d : levels) (temperature : Z) : result Q :=
  match first_breakpoint d temperature with
  | None => kv <- last_item d ;; OK (snd kv)
  | Some temp =>
      match dict_get d temp with
      | Some speed => OK speed
      | None => Raise KeyError
      end
  end.

(** Commands sent to the hardware sink.  The speed byte is [int(speed)]. *)
Inductive ipmi_call : Type :=
| ToggleFanControl (enable_manual_control : bool)
| SetStaticFanSpeed (speed : Z).

(** Lines 155-164; [sink_ok] is whether [ipmitool] exited with status 0. *)
Definition ipmi_set_static_fan_speed (sink_ok : bool) (d : levels)
  (temperature : Z) : result (ipmi_call * bool) :=
  speed <- lookup_speed d temperature ;;
  OK (SetStaticFanSpeed (float_int speed), sink_ok).

(** ** Telemetry drain *)

(** The hottest GPU of a tick ([highest_util], [highest_temp], [highest_idx],
    [highest_name]); the same shape stores the [previous_*] variables. *)
Record reading : Type := {
  util : Z;
  temp : Z;
  idx : Z;
  name : string
}.

Definition zero_reading : reading :=
  {| util := 0; temp := 0; idx := 0; name := EmptyString |}.

(** Lines 224-228: the stripped comma-separated fields of a line. *)
Definition clean_fields (line : string) : list string :=
  map (strip [space; newline]) (split_on comma line).

(** Line 233: [int(clean_data[2])]. *)
Definition temperature_field (clean_data : list string) : result Z :=
  c2 <- index clean_data 2 ;;
  int_of_str c2.

(** Lines 234-237: the four assignments, in order. *)
Definition read_record (clean_data : list string) : result reading :=
  c0 <- index clean_data 0 ;;
  highest_idx <- int_of_str c0 ;;
  highest_name <- index clean_data 1 ;;
  highest_temp <- temperature_field clean_data ;;
  c3 <- index clean_data 3 ;;
  highest_util <- int_of_str c3 ;;
  OK {| util := highest_util; temp := highest_temp;
        idx := highest_idx; name := highest_name |}.

(** Line 230: [clean_data[0] in ignored_gpus]. *)
Definition is_ignored (ignored_gpus : list string) (line : string) : bool :=
  match clean_fields line with
  | c0 :: _ => str_in c0 ignored_gpus
  | [] => false
  end.

(** Lines 224-242: one iteration of the inner [while], on the pair
    (highest, previous). *)
Definition drain_line (ignored_gpus : list string) (line : string)
  (st : reading * reading) : result (reading * reading) :=
  let clean_data := clean_fields line in
  if is_ignored ignored_gpus line then OK st
  else
    t <- temperature_field clean_data ;;
    highest <- (if t >? temp (fst st) then read_record clean_data
                else OK (fst st)) ;;
    OK (highest, highest).

(** Lines 223-242: the queue is drained in arrival order. *)
Fixpoint drain_queue (ignored_gpus : list string) (batch : list string)
  (st : reading * reading) : result (reading * reading) :=
  match batch with
  | [] => OK st
  | line :: rest =>
      st' <- drain_line ignored_gpus line st ;;
      drain_queue ignored_gpus rest st'
  end.

(** Lines 212-242: the aggregate of a tick and the updated [previous_*]
    values, from the lines found in the queue. *)
Definition aggregate_tick (ignored_gpus : list string) (batch : list string)
  (previous : reading) : result (reading * reading) :=
  match batch with
  | [] => OK (previous, previous)
  | _ :: _ => drain_queue ignored_gpus batch (zero_reading, previous)
  end.

(** ** Decision loop *)

(** The variables the loop carries from one iteration to the next.  Times
    are microseconds on the clock [datetime.now()] reads; [stop_nvidia_smi]
    is the event that requests shutdown, as the code of the loop writes it.
    The handler of SIGINT (lines 140-142) sets the same event at any time;
    it is not part of an iteration and is not modelled. *)
Record loop_state : Type := {
  previous : reading;
  manual_activated_dt : option Z;
  manual_met_idle_temp_dt : option Z;
  stop_nvidia_smi : bool
}.

(** Lines 189-190 and 206-209. *)
Definition initial_state : loop_state :=
  {| previous := zero_reading;
     manual_activated_dt := None;
     manual_met_idle_temp_dt := None;
     stop_nvidia_smi := false |}.

(** What one iteration reads from its environment: the lines in the queue,
    the clock, and the exit status of the [ipmitool] calls it may make (at
    most one toggle and one speed command per iteration). *)
Record tick_input : Type := {
  batch : list string;
  now : Z;
  toggle_ok : bool;
  speed_ok : bool
}.

Definition is_none {A : Type} (o : option A) : bool :=
  match o with
  | None => true
  | Some _ => false
  end.

(** Lines 257-259: [(now - met).total_seconds() >= interval and
    highest_util <= threshold].  With times in microseconds the elapsed
    seconds reach the interval when the difference reaches a million times
    the interval.  The comparison is taken on the exact difference, where
    [total_seconds()] returns its binary64 value. *)
Definition handoff_due (p : runtime_params) (now_us met_us highest_util : Z) : bool :=
  (gpu_auto_handoff_interval p * 1000000 <=? now_us - met_us)
  && (highest_util <=? gpu_idle_condition_threshold p).

(** Lines 244-266: the transition chosen for the tick's aggregate. *)
Definition transition (p : runtime_params) (inp : tick_input) (highest : reading)
  (s : loop_state) : loop_state * list ipmi_call :=
  if is_none (manual_activated_dt s)
     && (temp highest >=? gpu_activate_fan_control_threshold p)
  then
    ({| previous := previous s;
        manual_activated_dt := Some (now inp);
        manual_met_idle_temp_dt := None;
        stop_nvidia_smi := stop_nvidia_smi s || negb (toggle_ok inp) |},
     [ToggleFanControl true])
  else if negb (is_none (manual_activated_dt s))
          && is_none (manual_met_idle_temp_dt s)
          && (temp highest <=? gpu_idle_temp_target p)
  then
    ({| previous := previous s;
        manual_activated_dt := manual_activated_dt s;
        manual_met_idle_temp_dt := Some (now inp);
        stop_nvidia_smi := stop_nvidia_smi s |},
     [])
  else
    match manual_met_idle_temp_dt s with
    | Some met =>
        if handoff_due p (now inp) met (util highest) then
          ({| previous := previous s;
              manual_activated_dt := None;
              manual_met_idle_temp_dt := None;
              stop_nvidia_smi := stop_nvidia_smi s || negb (toggle_ok inp) |},
           [ToggleFanControl false])
        else (s, [])
    | None => (s, [])
    end.

(** How an iteration, or the loop, ends: normally, or with an uncaught
    exception; either way with the commands issued so far. *)
Inductive outcome (A : Type) : Type :=
| Done (a : A) (calls : list ipmi_call)
| Crashed (e : py_exception) (calls : list ipmi_call).

Arguments Done {A} a calls.
Arguments Crashed {A} e calls.

(** Lines 268-271: under manual control the curve speed is sent. *)
Definition drive_fans (d : levels) (inp : tick_input) (highest : reading)
  (s : loop_state) (calls : list ipmi_call) : outcome loop_state :=
  match manual_activated_dt s with
  | None => Done s calls
  | Some _ =>
      match ipmi_set_static_fan_speed (speed_ok inp) d (temp highest) with
      | Raise e => Crashed e calls
      | OK (call, ok) =>
          Done {| previous := previous s;
                  manual_activated_dt := manual_activated_dt s;
                  manual_met_idle_temp_dt := manual_met_idle_temp_dt s;
                  stop_nvidia_smi := stop_nvidia_smi s || negb ok |}
               (calls ++ [call])
      end
  end.

(** Lines 212-271: one iteration of the decision loop. *)
Definition tick (p : runtime_params) (ignored_gpus : list string) (d : levels)
  (inp : tick_input) (s : loop_state) : outcome loop_state :=
  match aggregate_tick ignored_gpus (batch inp) (previous s) with
  | Raise e => Crashed e []
  | OK (highest, prev) =>
      let s1 := {| previous := prev;
                   manual_activated_dt := manual_activated_dt s;
                   manual_met_idle_temp_dt := manual_met_idle_temp_dt s;
                   stop_nvidia_smi := stop_nvidia_smi s |} in
      let '(s2, calls) := transition p inp highest s1 in
      drive_fans d inp highest s2 calls
  end.

(** Lines 211-273: the iterations executed until [complete_shutdown] is
    seen, one per element of [ticks]. *)
Fixpoint run_loop (p : runtime_params) (ignored_gpus : list string) (d : levels)
  (ticks : list tick_input) (s : loop_state) : outcome loop_state :=
  match ticks with
  | [] => Done s []
  | inp :: rest =>
      match tick p ignored_gpus d inp s with
      | Crashed e calls => Crashed e calls
      | Done s' calls =>
          match run_loop p ignored_gpus d rest s' with
          | Crashed e calls' => Crashed e (calls ++ calls')
          | Done s'' calls' => Done s'' (calls ++ calls')
          end
      end
  end.

(** How the main thread ends: [exit(code)], or an uncaught exception, each
    with the commands sent until then.  The thread that reads nvidia-smi
    (lines 186-187) is not a daemon: after an uncaught exception in the main
    thread it keeps the process alive. *)
Inductive process_end : Type :=
| Exit (code : Z) (calls : list ipmi_call)
| Traceback (e : py_exception) (calls : list ipmi_call).

(** Lines 275-280: the terminal hand-back. *)
Definition final_handback (final_ok : bool) (calls : list ipmi_call) : process_end :=
  Exit (if final_ok then 0 else 1) (calls ++ [ToggleFanControl false]).

(** Thresholds up to this bound convert to binary64 without rounding. *)
Definition float_exact_bound : Z := 2 ^ 53.

Section Main.

(** [numpy.geomspace(start, stop, num)]. *)
Variable geomspace : Q -> Q -> nat -> result (list Q).

(** Lines 191-203: the two arrays and the table built from them. *)
Definition curve_construction (p : runtime_params) : result levels :=
  temp_levels <- geomspace (inject_Z (gpu_activate_fan_control_threshold p))
                           (inject_Z (gpu_max_temp_threshold p)) num_levels ;;
  fan_levels <- geomspace (inject_Z (gpu_min_fan_speed_target p))
                          (inject_Z 100) num_levels ;;
  build_levels temp_levels fan_levels.

(** Lines 167-280.  [use_which] tells which tools are installed, [params]
    is [runtime_params] after the command line was applied, [ticks] are the
    iterations run before shutdown completes, [final_ok] the exit status of
    the last [ipmitool] call. *)
Definition main (use_which : string -> bool) (params : runtime_params)
  (ticks : list tick_input) (final_ok : bool) : process_end :=
  if negb (check_dependencies use_which) then Exit 1 []
  else
    let p := resolve_activate_threshold params in
    let ignored_gpus := parse_ignored_gpus p in
    match curve_construction p with
    | Raise e => Traceback e []
    | OK levels_dict =>
        match run_loop p ignored_gpus levels_dict ticks initial_state with
        | Crashed e calls => Traceback e calls
        | Done _ calls => final_handback final_ok calls
        end
    end.

End Main.

(** What the program relies on from [numpy.geomspace]: a zero endpoint is
    refused with [ValueError]; positive endpoints give [num] samples. *)
Definition numpy_geomspace (geomspace : Q -> Q -> nat -> result (list Q)) : Prop :=
  (forall start stop num,
      start == 0 \/ stop == 0 -> geomspace start stop num = Raise ValueError)%Q
  /\ (forall start stop num,
         (0 < start)%Q -> (start <= inject_Z float_exact_bound)%Q ->
         (0 < stop)%Q -> (stop <= inject_Z float_exact_bound)%Q ->
         exists samples, geomspace start stop num = OK samples
                         /\ List.length samples = num).

(** A generator that meets [numpy_geomspace], for closed examples.  It
    refuses a zero endpoint, pins both endpoints and interpolates linearly
    in between: the interior values of NumPy's result depend on binary64
    rounding and are not reproduced.  The theorems below hold for every
    generator that meets the contract. *)
Definition interp_samples (start stop : Q) (num : nat) : result (list Q) :=
  if Qeq_bool start 0 || Qeq_bool stop 0 then Raise ValueError
  else
    OK (map (fun i =>
               Qred (start + (stop - start) * (inject_Z (Z.of_nat i)
                                               / inject_Z (Z.of_nat (num - 1)))))
            (seq 0 num)).




(** ** Vocabulary of the properties *)

(** Breakpoints strictly increase in insertion order. *)
Definition increasing (keys : list Q) : Prop := StronglySorted Qlt keys.

(** Samples never decrease from one index to the next. *)
Definition nondecreasing (samples : list Q) : Prop := StronglySorted Qle samples.

Fixpoint nondecreasingb (samples : list Q) : bool :=
  match samples with
  | [] => true
  | a :: rest =>
      match rest with
      | [] => true
      | b :: _ => Qle_bool a b && nondecreasingb rest
      end
  end.

(** [(k, v)] is the entry of the smallest breakpoint at or above [t]. *)
Definition smallest_breakpoint_at_least (d : levels) (t : Z) (k v : Q) : Prop :=
  In (k, v) d
  /\ (inject_Z t <= k)%Q
  /\ forall k' v', In (k', v') d -> (inject_Z t <= k')%Q -> (k <= k')%Q.

(** [t] exceeds every breakpoint. *)
Definition above_all_breakpoints (d : levels) (t : Z) : Prop :=
  forall k' v', In (k', v') d -> (k' < inject_Z t)%Q.

(** [(k, v)] is the last entry and holds the highest breakpoint. *)
Definition highest_breakpoint (d : levels) (k v : Q) : Prop :=
  last_item d = OK (k, v)
  /\ forall k' v', In (k', v') d -> (k' <= k)%Q.

(** Thresholds the contract of [numpy.geomspace] speaks about. *)
Definition positive_threshold (z : Z) : Prop := 0 < z <= float_exact_bound.

(** The record's temperature field is an integer not above 0. *)
Definition not_above_zero (line : string) : Prop :=
  exists t, temperature_field (clean_fields line) = OK t /\ t <= 0.

(** Processing the record raises [e] when the running maximum is
    [highest_temp]: its temperature field is missing or not an integer, or
    the temperature is a new maximum and another field cannot be read. *)
Definition raises_on (line : string) (highest_temp : Z) (e : py_exception) : Prop :=
  temperature_field (clean_fields line) = Raise e
  \/ exists t, temperature_field (clean_fields line) = OK t
               /\ highest_temp < t
               /\ read_record (clean_fields line) = Raise e.

(** The states the loop can be in at the start of an iteration. *)
Inductive reachable (p : runtime_params) (ignored_gpus : list string) (d : levels) :
  loop_state -> Prop :=
| reachable_initial : reachable p ignored_gpus d initial_state
| reachable_tick : forall s inp s' calls,
    reachable p ignored_gpus d s ->
    tick p ignored_gpus d inp s = Done s' calls ->
    reachable p ignored_gpus d s'.

(** The idle timestamp is only ever set under manual control. *)
Definition idle_implies_manual (s : loop_state) : Prop :=
  manual_activated_dt s = None -> manual_met_idle_temp_dt s = None.

(** ** Example inputs *)

(** Example arrays: 512 samples from 55 to 80 degrees and from 50 to 100
    percent. *)
Definition example_temp_levels : list Q :=
  match interp_samples (inject_Z 55) (inject_Z 80) num_levels with
  | OK samples => samples
  | Raise _ => []
  end.

Definition example_fan_levels : list Q :=
  match interp_samples (inject_Z 50) (inject_Z 100) num_levels with
  | OK samples => samples
  | Raise _ => []
  end.

Definition example_levels : levels := combine example_temp_levels example_fan_levels.

(** A configuration whose activation threshold lies above the maximum. *)
Definition inverted_params : runtime_params :=
  {| gpu_max_temp_threshold := 60;
     gpu_min_fan_speed_target := 50;
     gpu_idle_temp_target := 45;
     gpu_auto_handoff_interval := 10;
     gpu_idle_condition_threshold := 0;
     gpu_activate_fan_control_threshold := 80;
     ignore_gpus := None |}.


Definition params_ignoring_gpu1 : runtime_params :=
  {| gpu_max_temp_threshold := 80;
     gpu_min_fan_speed_target := 50;
     gpu_idle_temp_target := 45;
     gpu_auto_handoff_interval := 10;
     gpu_idle_condition_threshold := 0;
     gpu_activate_fan_control_threshold := 55;
     ignore_gpus := Some "1"%string |}.

Definition all_installed (tool : string) : bool := true.

(** A machine on which [which ipmitool] fails. *)
Definition ipmitool_missing (tool : string) : bool :=
  negb (String.eqb tool "ipmitool").

Definition mild_reading : reading :=
  {| util := 5; temp := 50; idx := 0; name := "Tesla K80"%string |}.

Definition hot_reading : reading :=
  {| util := 90; temp := 85; idx := 0; name := "Tesla K80"%string |}.

(** A GPU that has cooled to 44 degrees and is idle. *)
Definition idle_reading : reading :=
  {| util := 0; temp := 44; idx := 0; name := "Tesla K80"%string |}.

(** GPU 0 at 50 degrees, below the activation threshold: the fans stay
    under automatic control and the table is not consulted. *)
Definition mild_tick : tick_input :=
  {| batch := ["0, Tesla K80, 50, 5"%string];
     now := 0;
     toggle_ok := true;
     speed_ok := true |}.

(** One iteration that finds a GPU at 85 degrees in the queue. *)
Definition hot_tick : tick_input :=
  {| batch := ["0, Tesla K80, 85, 90"%string];
     now := 0;
     toggle_ok := true;
     speed_ok := true |}.

(** Only GPU 1 reports, one second later. *)
Definition ignored_only_tick : tick_input :=
  {| batch := ["1, Tesla P40, 90, 50"%string];
     now := 1000000;
     toggle_ok := true;
     speed_ok := true |}.

(** Nothing in the queue, another second later. *)
Definition quiet_tick : tick_input :=
  {| batch := [];
     now := 2000000;
     toggle_ok := true;
     speed_ok := true |}.

Definition idle_tick : tick_input :=
  {| batch := ["0, Tesla K80, 44, 0"%string];
     now := 1000000;
     toggle_ok := true;
     speed_ok := true |}.

(** Five seconds in, the GPU is back at 50 degrees and busy. *)
Definition rebound_tick : tick_input :=
  {| batch := ["0, Tesla K80, 50, 30"%string];
     now := 5000000;
     toggle_ok := true;
     speed_ok := true |}.

(** Eleven seconds in, idle again; the release command fails. *)
Definition dip_tick_release_fails : tick_input :=
  {| batch := ["0, Tesla K80, 44, 0"%string];
     now := 11000000;
     toggle_ok := false;
     speed_ok := true |}.

(** A queue holding one record without a usable temperature. *)
Definition garbled_tick : tick_input :=
  {| batch := ["0, Tesla K80, [N/A], 15"%string];
     now := 0;
     toggle_ok := true;
     speed_ok := true |}.

(** A good record followed by one that was cut short. *)
Definition truncated_tick : tick_input :=
  {| batch := ["0, Tesla K80, 50, 5"%string; "1, Tesla P40"%string];
     now := 0;
     toggle_ok := true;
     speed_ok := true |}.

(** Manual control since time 0, idle temperature met after one second. *)
Definition idle_pending_state : loop_state :=
  {| previous := idle_reading;
     manual_activated_dt := Some 0;
     manual_met_idle_temp_dt := Some 1000000;
     stop_nvidia_smi := false |}.

(** ** Command lines of the hardware sink *)

(** The sixteen digits of the [X] presentation type. *)
Definition hex_char (d : Z) : ascii :=
  nth (Z.to_nat d) (list_ascii_of_string "0123456789ABCDEF") "0"%char.

(** The digits of a non-negative integer in base 16, most significant
    first, in front of [acc].  [fuel] bounds the number of digits. *)
Fixpoint hex_upper_aux (fuel : nat) (n : Z) (acc : string) : string :=
  match fuel with
  | O => acc
  | S fuel' =>
      let acc' := String (hex_char (n mod 16)) acc in
      if n / 16 =? 0 then acc' else hex_upper_aux fuel' (n / 16) acc'
  end.

Definition hex_upper (n : Z) : string :=
  hex_upper_aux (S (Z.to_nat (Z.log2 n))) n EmptyString.

(** [f"{n:02X}"]: upper-case hexadecimal, zero-padded to two characters; a
    negative number keeps its sign in front of the digits. *)
Definition format_02X (n : Z) : string :=
  if n <? 0 then String "-"%char (hex_upper (- n))
  else
    let digits := hex_upper n in
    if (String.length digits <? 2)%nat then String "0"%char digits else digits.

(** Lines 148, 150 and 163: the argument vector handed to [subprocess.call]. *)
Definition ipmi_argv (call : ipmi_call) : list string :=
  match call with
  | ToggleFanControl true =>
      ["ipmitool"; "raw"; "0x30"; "0x30"; "0x01"; "0x00"]%string
  | ToggleFanControl false =>
      ["ipmitool"; "raw"; "0x30"; "0x30"; "0x01"; "0x01"]%string
  | SetStaticFanSpeed speed =>
      ["ipmitool"; "raw"; "0x30"; "0x30"; "0x02"; "0xff";
       String.append "0x" (format_02X speed)]%string
  end.

(** ** Vocabulary of the further properties *)

(** The value of an upper-case hexadecimal numeral, read left to right
    from the value [acc] of the digits already read. *)
Definition hex_digit_value (c : ascii) : option Z :=
  let n := Z.of_N (N_of_ascii c) in
  if (48 <=? n) && (n <=? 57) then Some (n - 48)
  else if (65 <=? n) && (n <=? 70) then Some (n - 55)
  else None.

Fixpoint hex_value (acc : Z) (numeral : string) : option Z :=
  match numeral with
  | EmptyString => Some acc
  | String c rest =>
      match hex_digit_value c with
      | Some d => hex_value (16 * acc + d) rest
      | None => None
      end
  end.

(** The commands an iteration or a run issued, however it ended. *)
Definition calls_of {A : Type} (o : outcome A) : list ipmi_call :=
  match o with
  | Done _ calls => calls
  | Crashed _ calls => calls
  end.

(** The fan mode last requested from the BMC after [calls], starting from
    [manual]: [true] for manual control. *)
Fixpoint mode_after (manual : bool) (calls : list ipmi_call) : bool :=
  match calls with
  | [] => manual
  | ToggleFanControl enable :: rest => mode_after enable rest
  | SetStaticFanSpeed _ :: rest => mode_after manual rest
  end.

(** Every speed command of [calls] is sent while manual control is the
    mode last requested. *)
Fixpoint speeds_follow_takeover (manual : bool) (calls : list ipmi_call) : bool :=
  match calls with
  | [] => true
  | ToggleFanControl enable :: rest => speeds_follow_takeover enable rest
  | SetStaticFanSpeed _ :: rest => manual && speeds_follow_takeover manual rest
  end.

(** The loop believes it holds manual control. *)
Definition under_manual (s : loop_state) : bool :=
  negb (is_none (manual_activated_dt s)).

Definition is_toggle (call : ipmi_call) : bool :=
  match call with
  | ToggleFanControl _ => true
  | SetStaticFanSpeed _ => false
  end.

Definition is_speed (call : ipmi_call) : bool := negb (is_toggle call).

(** The state with the stop request raised. *)
Definition with_stop_request (s : loop_state) : loop_state :=
  {| previous := previous s;
     manual_activated_dt := manual_activated_dt s;
     manual_met_idle_temp_dt := manual_met_idle_temp_dt s;
     stop_nvidia_smi := true |}.

(** [sep.join(fields)] *)
Fixpoint join (sep : string) (fields : list string) : string :=
  match fields with
  | [] => EmptyString
  | [f] => f
  | f :: rest => String.append f (String.append sep (join sep rest))
  end.

(** The field holds no comma. *)
Definition comma_free (f : string) : Prop :=
  forallb (fun c => negb (Ascii.eqb c comma)) (list_ascii_of_string f) = true.

(** Stripping the characters changes nothing. *)
Definition trimmed (chars : list ascii) (f : string) : Prop :=
  lstrip chars f = f /\ rstrip chars f = f.

(** The string is made of the given characters only. *)
Definition only_chars (chars : list ascii) (s : string) : Prop :=
  forallb (char_in chars) (list_ascii_of_string s) = true.

(** A record as nvidia-smi's csv format writes it: the fields separated by
    a comma and a blank, the line closed by a newline. *)
Definition csv_line (fields : list string) : string :=
  String.append (join ", " fields) (String newline EmptyString).

(** Speeds never decrease along the table. *)
Definition speeds_nondecreasing (d : levels) : Prop :=
  StronglySorted Qle (map snd d).

(** After the first [n] assignments of the filling loop, every breakpoint
    assigned so far maps to the speed of its last assignment. *)
Definition last_assignment_wins (temp_levels fan_levels : list Q) (n : nat)
  (d : levels) : Prop :=
  forall a k,
    (a < n)%nat -> nth_error temp_levels a = Some k ->
    exists j kj v,
      (a <= j < n)%nat
      /\ nth_error temp_levels j = Some kj /\ (kj == k)%Q
      /\ nth_error fan_levels j = Some v
      /\ dict_get d k = Some v
      /\ forall j' kj',
          (j < j' < n)%nat -> nth_error temp_levels j' = Some kj' ->
          ~ (kj' == k)%Q.

(** A test for strictly increasing samples. *)
Fixpoint increasingb (samples : list Q) : bool :=
  match samples with
  | [] => true
  | a :: rest =>
      match rest with
      | [] => true
      | b :: _ => negb (Qle_bool b a) && increasingb rest
      end
  end.

(** * Properties *)

(** One iteration of the filling loop, on arrays that are long enough: both
    subscripts succeed. *)
Ltac step_fill_levels key speed Ek Es :=
  simpl; unfold index;
  match goal with
  | |- context [nth_error ?keys ?i] =>
      destruct (nth_error keys i) as [key|] eqn:Ek;
      [|apply nth_error_None in Ek; lia]
  end;
  match goal with
  | |- context [nth_error ?speeds ?i] =>
      destruct (nth_error speeds i) as [speed|] eqn:Es;
      [|apply nth_error_None in Es; lia]
  end;
  simpl.

(** Two of the example readings differ. *)
Ltac readings_differ := unfold mild_reading, zero_reading; discriminate.

(** ** Fan curve: lemmas *)

Lemma float_int_le (k : Q) (t : Z) :
  (0 <= k)%Q -> (t <=? float_int k) = true <-> (inject_Z t <= k)%Q.
Proof.
  destruct k as [n d]; unfold Qle, float_int; simpl; intros Hn.
  assert (0 <= n) by lia.
  rewrite Z.leb_le, Z.quot_div_nonneg by lia.
  split; intros Ht.
  - pose proof (Z.mul_div_le n (Z.pos d) ltac:(lia)). nia.
  - apply Z.div_le_lower_bound; lia.
Qed.

Lemma increasing_cons_inv (k : Q) (keys : list Q) :
  increasing (k :: keys) -> increasing keys /\ Forall (Qlt k) keys.
Proof.
  intros H; inversion H; subst; split; assumption.
Qed.

Lemma key_in_map_fst (d : levels) (k v : Q) : In (k, v) d -> In k (map fst d).
Proof.
  intros H; change k with (fst (k, v)); apply in_map; exact H.
Qed.

Lemma Qeq_bool_lt_false (a b : Q) : (a < b)%Q -> Qeq_bool a b = false.
Proof.
  intros Hlt. destruct (Qeq_bool a b) eqn:E; [|reflexivity].
  apply Qeq_bool_iff in E. rewrite E in Hlt.
  exfalso; exact (Qlt_irrefl _ Hlt).
Qed.

(** On a table with increasing non-negative keys the first key that passes
    the filter is the smallest key at or above the temperature, and
    subscripting the table with it gives back its own speed. *)
Lemma find_first_is_smallest (d : levels) (t : Z) :
  increasing (map fst d) ->
  Forall (fun kv => (0 <= fst kv)%Q) d ->
  match find (fun kv => t <=? float_int (fst kv)) d with
  | Some (k, v) => smallest_breakpoint_at_least d t k v /\ dict_get d k = Some v
  | None => above_all_breakpoints d t
  end.
Proof.
  induction d as [|[k0 v0] rest IH]; intros Hinc Hpos.
  - intros k' v' [].
  - simpl in Hinc. apply increasing_cons_inv in Hinc as [Hinc Hlt].
    inversion Hpos as [|? ? Hk0 Hrest]; subst. simpl in Hk0.
    specialize (IH Hinc Hrest).
    rewrite Forall_forall in Hlt.
    simpl. destruct (t <=? float_int k0) eqn:E.
    + apply float_int_le in E; [|exact Hk0]. split.
      * split; [left; reflexivity|]. split; [exact E|].
        intros k' v' [Heq|Hin] _.
        -- inversion Heq; subst. apply Qle_refl.
        -- apply Qlt_le_weak, Hlt. eapply key_in_map_fst; exact Hin.
      * rewrite Qeq_bool_refl. reflexivity.
    + assert (Hnot : ~ (inject_Z t <= k0)%Q).
      { intros Hle. apply float_int_le in Hle; [|exact Hk0]. congruence. }
      destruct (find (fun kv => t <=? float_int (fst kv)) rest) as [[k v]|].
      * destruct IH as [(Hin & Hle & Hmin) Hget]. split.
        -- split; [right; exact Hin|]. split; [exact Hle|].
           intros k' v' [Heq|Hin'] Hle'.
           ++ inversion Heq; subst. contradiction.
           ++ eapply Hmin; eassumption.
        -- rewrite Qeq_bool_lt_false; [exact Hget|].
           apply Hlt. eapply key_in_map_fst; exact Hin.
      * intros k' v' [Heq|Hin].
        -- inversion Heq; subst. apply Qnot_le_lt; exact Hnot.
        -- eapply IH; exact Hin.
Qed.

Lemma last_item_nonempty (d : levels) :
  d <> [] -> exists kv, last_item d = OK kv /\ In kv d.
Proof.
  induction d as [|kv rest IH]; intros Hne; [congruence|].
  destruct rest as [|kv' rest'].
  - exists kv; split; [reflexivity|left; reflexivity].
  - destruct IH as (x & Hx & Hin); [discriminate|].
    exists x; split; [exact Hx|right; exact Hin].
Qed.

Lemma last_item_is_highest (d : levels) (k v : Q) :
  increasing (map fst d) -> last_item d = OK (k, v) -> highest_breakpoint d k v.
Proof.
  intros Hinc Hlast; split; [exact Hlast|].
  induction d as [|[k0 v0] rest IH]; [intros ? ? []|].
  simpl in Hinc. apply increasing_cons_inv in Hinc as [Hinc Hlt].
  rewrite Forall_forall in Hlt.
  destruct rest as [|kv' rest'].
  - simpl in Hlast. inversion Hlast; subst.
    intros k' v' [Heq|[]]. inversion Heq; subst. apply Qle_refl.
  - change (last_item (kv' :: rest') = OK (k, v)) in Hlast.
    specialize (IH Hinc Hlast).
    intros k' v' [Heq|Hin]; [|eapply IH; exact Hin].
    inversion Heq; subst. apply Qlt_le_weak, Hlt.
    destruct (last_item_nonempty (kv' :: rest') ltac:(discriminate))
      as (x & Hx & Hin).
    rewrite Hlast in Hx. inversion Hx; subst.
    eapply key_in_map_fst; exact Hin.
Qed.

(** The lookup on any non-empty table with increasing non-negative keys. *)
Lemma lookup_speed_sorted (d : levels) (t : Z) :
  d <> [] ->
  increasing (map fst d) ->
  Forall (fun kv => (0 <= fst kv)%Q) d ->
  exists v,
    lookup_speed d t = OK v
    /\ ((exists k, smallest_breakpoint_at_least d t k v)
        \/ (above_all_breakpoints d t /\ exists k, highest_breakpoint d k v)).
Proof.
  intros Hne Hinc Hpos.
  pose proof (find_first_is_smallest d t Hinc Hpos) as Hfind.
  unfold lookup_speed, first_breakpoint.
  destruct (find (fun kv => t <=? float_int (fst kv)) d) as [[k v]|]; simpl.
  - destruct Hfind as [Hsmall Hget]. rewrite Hget.
    exists v; split; [reflexivity|]. left; exists k; exact Hsmall.
  - destruct (last_item_nonempty d Hne) as ([k v] & Hlast & _).
    rewrite Hlast; simpl.
    exists v; split; [reflexivity|]. right; split; [exact Hfind|].
    exists k. apply last_item_is_highest; assumption.
Qed.

(** *** The table the loop of lines 199-203 builds *)

Lemma dict_set_fresh (d : levels) (k v : Q) :
  Forall (fun kv => (fst kv < k)%Q) d -> dict_set d k v = d ++ [(k, v)].
Proof.
  induction 1 as [|[k0 v0] rest Hlt _ IH]; [reflexivity|].
  simpl in *. rewrite (Qeq_bool_lt_false _ _ Hlt), IH. reflexivity.
Qed.

Lemma firstn_snoc {A : Type} (l : list A) (i : nat) (x : A) :
  nth_error l i = Some x -> firstn (S i) l = firstn i l ++ [x].
Proof.
  revert i; induction l as [|a l IH]; intros [|i] H; try discriminate.
  - inversion H; reflexivity.
  - simpl in H. change (a :: firstn (S i) l = a :: (firstn i l ++ [x])).
    rewrite (IH _ H). reflexivity.
Qed.

Lemma combine_snoc {A B : Type} (l : list A) (l' : list B) (x : A) (y : B) :
  List.length l = List.length l' ->
  combine (l ++ [x]) (l' ++ [y]) = combine l l' ++ [(x, y)].
Proof.
  revert l'; induction l as [|a l IH]; intros [|b l'] H; try discriminate.
  - reflexivity.
  - simpl in *. rewrite IH by lia. reflexivity.
Qed.

Lemma increasing_prefix_below (keys : list Q) (i : nat) (k : Q) :
  increasing keys -> nth_error keys i = Some k ->
  Forall (fun x => (x < k)%Q) (firstn i keys).
Proof.
  revert i; induction keys as [|a keys IH]; intros [|i] Hinc Hnth;
    try discriminate; [constructor|].
  apply increasing_cons_inv in Hinc as [Hinc Hlt].
  simpl in Hnth. simpl. constructor.
  - rewrite Forall_forall in Hlt. apply Hlt. eapply nth_error_In; exact Hnth.
  - apply IH; assumption.
Qed.

Lemma combine_keys_below (keys speeds : list Q) (k : Q) :
  Forall (fun x => (x < k)%Q) keys ->
  Forall (fun kv => (fst kv < k)%Q) (combine keys speeds).
Proof.
  intros H; revert speeds; induction H as [|a keys Ha _ IH]; intros [|b speeds];
    simpl; constructor; auto.
Qed.

Lemma fill_levels_increasing (temp_levels fan_levels : list Q) :
  increasing temp_levels ->
  forall fuel i,
    (i + fuel <= List.length temp_levels)%nat ->
    (i + fuel <= List.length fan_levels)%nat ->
    fill_levels fuel i temp_levels fan_levels
      (combine (firstn i temp_levels) (firstn i fan_levels))
    = OK (combine (firstn (i + fuel) temp_levels) (firstn (i + fuel) fan_levels)).
Proof.
  intros Hinc fuel; induction fuel as [|fuel IH]; intros i Ht Hf.
  - rewrite Nat.add_0_r. reflexivity.
  - step_fill_levels key speed Ek Es. rewrite dict_set_fresh.
    + rewrite <- combine_snoc by (rewrite !length_firstn; lia).
      rewrite <- (firstn_snoc _ _ _ Ek), <- (firstn_snoc _ _ _ Es).
      rewrite IH by lia. replace (S i + fuel)%nat with (i + S fuel)%nat by lia.
      reflexivity.
    + apply combine_keys_below, increasing_prefix_below; assumption.
Qed.

(** With 512 increasing breakpoints the table pairs the two arrays index
    for index. *)
Lemma build_levels_increasing (temp_levels fan_levels : list Q) :
  increasing temp_levels ->
  List.length temp_levels = num_levels ->
  List.length fan_levels = num_levels ->
  build_levels temp_levels fan_levels = OK (combine temp_levels fan_levels).
Proof.
  intros Hinc Ht Hf. unfold build_levels.
  change (@nil (Q * Q)) with (combine (firstn 0 temp_levels) (firstn 0 fan_levels)).
  rewrite fill_levels_increasing by (try assumption; lia).
  change (0 + num_levels)%nat with num_levels.
  f_equal; f_equal.
  - rewrite <- Ht. apply firstn_all.
  - rewrite <- Hf. apply firstn_all.
Qed.

Lemma map_fst_combine (keys speeds : list Q) :
  List.length keys = List.length speeds -> map fst (combine keys speeds) = keys.
Proof.
  revert speeds; induction keys as [|a keys IH]; intros [|b speeds] H;
    try discriminate; [reflexivity|].
  simpl in *. rewrite IH by lia. reflexivity.
Qed.

Lemma last_item_in (d : levels) (kv : Q * Q) : last_item d = OK kv -> In kv d.
Proof.
  intros H. destruct d as [|x d']; [discriminate|].
  destruct (last_item_nonempty (x :: d') ltac:(discriminate)) as (y & Hy & Hin).
  rewrite H in Hy. inversion Hy; subst. exact Hin.
Qed.

Lemma nonneg_keys_combine (keys speeds : list Q) :
  Forall (fun k => (0 <= k)%Q) keys ->
  Forall (fun kv => (0 <= fst kv)%Q) (combine keys speeds).
Proof.
  intros H; revert speeds; induction H as [|a keys Ha _ IH]; intros [|b speeds];
    simpl; constructor; auto.
Qed.

Lemma forallb_nonneg (keys : list Q) :
  forallb (Qle_bool 0) keys = true -> Forall (fun k => (0 <= k)%Q) keys.
Proof.
  intros H. apply Forall_forall. intros k Hin.
  apply Qle_bool_iff. rewrite forallb_forall in H. apply H; exact Hin.
Qed.

(** *** Tables built from non-decreasing breakpoints *)

Lemma nondecreasingb_sound (samples : list Q) :
  nondecreasingb samples = true -> nondecreasing samples.
Proof.
  intros H; apply Sorted_StronglySorted.
  - intros x y z; apply Qle_trans.
  - induction samples as [|a rest IH]; [constructor|].
    destruct rest as [|b rest'].
    + repeat constructor.
    + simpl in H. apply andb_true_iff in H as [Hab Hrest].
      constructor; [apply IH; exact Hrest|].
      constructor. apply Qle_bool_iff; exact Hab.
Qed.

Lemma nondecreasing_nth (samples : list Q) :
  nondecreasing samples ->
  forall i j x y,
    (i <= j)%nat -> nth_error samples i = Some x -> nth_error samples j = Some y ->
    (x <= y)%Q.
Proof.
  induction 1 as [|a rest Hrest IH Ha]; intros i j x y Hij Hx Hy.
  - destruct i; discriminate.
  - destruct i as [|i], j as [|j]; simpl in Hx, Hy; try lia.
    + inversion Hx; inversion Hy; subst. apply Qle_refl.
    + inversion Hx; subst. rewrite Forall_forall in Ha.
      apply Ha. eapply nth_error_In; exact Hy.
    + apply (IH i j); try assumption; lia.
Qed.

Lemma dict_set_keys (d : levels) (k v : Q) (x : Q) :
  In x (map fst (dict_set d k v)) -> In x (map fst d) \/ x = k.
Proof.
  induction d as [|[k0 v0] rest IH]; simpl.
  - intros [H|[]]; right; symmetry; exact H.
  - destruct (Qeq_bool k0 k); simpl.
    + intros H; left; exact H.
    + intros [H|H]; [left; left; exact H|].
      destruct (IH H) as [H'|H']; [left; right; exact H'|right; exact H'].
Qed.

(** Assigning a key that is at least every key present keeps the keys
    strictly increasing: it either overwrites the last entry or appends. *)
Lemma dict_set_increasing (d : levels) (k v : Q) :
  increasing (map fst d) ->
  Forall (fun x => (x <= k)%Q) (map fst d) ->
  increasing (map fst (dict_set d k v)).
Proof.
  induction d as [|[k0 v0] rest IH]; intros Hinc Hle; simpl.
  - repeat constructor.
  - simpl in Hinc, Hle. apply increasing_cons_inv in Hinc as [Hinc Hlt].
    inversion Hle as [|? ? Hk0 Hrest]; subst.
    destruct (Qeq_bool k0 k) eqn:E; simpl.
    + constructor; assumption.
    + constructor; [apply IH; assumption|].
      apply Forall_forall. intros x Hx.
      destruct (dict_set_keys _ _ _ _ Hx) as [Hin|Heq].
      * rewrite Forall_forall in Hlt. apply Hlt; exact Hin.
      * subst x. apply Qle_lt_or_eq in Hk0 as [Hlt0|Heq0]; [exact Hlt0|].
        apply Qeq_bool_iff in Heq0. congruence.
Qed.

Lemma fill_levels_nondecreasing (temp_levels fan_levels : list Q) :
  nondecreasing temp_levels ->
  forall fuel i acc,
    (i + fuel <= List.length temp_levels)%nat ->
    (i + fuel <= List.length fan_levels)%nat ->
    increasing (map fst acc) ->
    (forall x j y, In x (map fst acc) -> (i <= j)%nat ->
                   nth_error temp_levels j = Some y -> (x <= y)%Q) ->
    exists d,
      fill_levels fuel i temp_levels fan_levels acc = OK d
      /\ increasing (map fst d)
      /\ (forall x, In x (map fst d) -> In x (map fst acc) \/ In x temp_levels)
      /\ (acc <> [] \/ fuel <> O -> d <> []).
Proof.
  intros Hsorted fuel; induction fuel as [|fuel IH]; intros i acc Ht Hf Hinc Hbelow.
  - exists acc. split; [reflexivity|]. split; [exact Hinc|].
    split; [intros x Hx; left; exact Hx|].
    intros [H|H]; [exact H|congruence].
  - step_fill_levels key speed Ek Es.
    destruct (IH (S i) (dict_set acc key speed)) as (d & Hd & Hdinc & Hkeys & Hne);
      try lia.
    + apply dict_set_increasing; [exact Hinc|].
      apply Forall_forall. intros x Hx. apply (Hbelow x i key Hx (le_n i) Ek).
    + intros x j y Hx Hj Hy.
      destruct (dict_set_keys _ _ _ _ Hx) as [Hin|Heq].
      * apply (Hbelow x j y Hin); [lia|exact Hy].
      * subst x. apply (nondecreasing_nth _ Hsorted i j); try assumption; lia.
    + exists d. split; [exact Hd|]. split; [exact Hdinc|]. split.
      * intros x Hx. destruct (Hkeys x Hx) as [Hin|Hin]; [|right; exact Hin].
        destruct (dict_set_keys _ _ _ _ Hin) as [Hin'|Heq]; [left; exact Hin'|].
        subst x. right. eapply nth_error_In; exact Ek.
      * intros _. apply Hne. left.
        destruct acc as [|[k0 v0] rest]; simpl; [discriminate|].
        destruct (Qeq_bool k0 key); discriminate.
Qed.

(** The table built from 512 non-decreasing breakpoints is not empty, its
    keys strictly increase and all come from the breakpoint array. *)
Lemma build_levels_nondecreasing (temp_levels fan_levels : list Q) :
  nondecreasing temp_levels ->
  List.length temp_levels = num_levels ->
  List.length fan_levels = num_levels ->
  exists d,
    build_levels temp_levels fan_levels = OK d
    /\ d <> []
    /\ increasing (map fst d)
    /\ forall x, In x (map fst d) -> In x temp_levels.
Proof.
  intros Hsorted Ht Hf.
  destruct (fill_levels_nondecreasing temp_levels fan_levels Hsorted
              num_levels 0 [])
    as (d & Hd & Hinc & Hkeys & Hne); try lia.
  - constructor.
  - intros x j y [].
  - exists d. split; [exact Hd|]. split; [apply Hne; right; discriminate|].
    split; [exact Hinc|].
    intros x Hx. destruct (Hkeys x Hx) as [[]|Hin]; exact Hin.
Qed.

(** ** Fan curve: the lookup on the constructed table *)

(** C1, as the program has it.  For the table built from 512
    non-decreasing, non-negative temperature breakpoints and every integer
    temperature, the lookup does not raise; it returns the speed paired with the smallest breakpoint that
    is at or above the temperature, or, when the temperature exceeds every
    breakpoint, the speed of the last entry, which holds the highest
    breakpoint.  The speed returned is one of the table's, so it exceeds no
    bound on the defined speeds. *)
Theorem lookup_speed_constructed_table :
  forall (temp_levels fan_levels : list Q) (temperature : Z),
    List.length temp_levels = num_levels ->
    List.length fan_levels = num_levels ->
    nondecreasing temp_levels ->
    Forall (fun k => (0 <= k)%Q) temp_levels ->
    exists d v,
      build_levels temp_levels fan_levels = OK d
      /\ lookup_speed d temperature = OK v
      /\ ((exists k, smallest_breakpoint_at_least d temperature k v)
          \/ (above_all_breakpoints d temperature
              /\ exists k, highest_breakpoint d k v))
      /\ (exists k, In (k, v) d)
      /\ forall bound, Forall (fun kv => (snd kv <= bound)%Q) d -> (v <= bound)%Q.
Proof.
  intros tl fl t Ht Hf Hsorted Hpos.
  destruct (build_levels_nondecreasing tl fl Hsorted Ht Hf)
    as (d & Hd & Hne & Hinc & Hkeys).
  exists d.
  destruct (lookup_speed_sorted d t Hne Hinc) as (v & Hv & Hcase).
  { apply Forall_forall. intros [k v] Hin. simpl.
    rewrite Forall_forall in Hpos. apply Hpos, Hkeys.
    eapply key_in_map_fst; exact Hin. }
  assert (Hin : exists k, In (k, v) d).
  { destruct Hcase as [(k & Hk & _)|(_ & k & Hlast & _)].
    - exists k; exact Hk.
    - exists k; apply last_item_in; exact Hlast. }
  exists v. split; [exact Hd|].
  split; [exact Hv|]. split; [exact Hcase|]. split; [exact Hin|].
  intros bound Hb. destruct Hin as (k & Hk).
  rewrite Forall_forall in Hb. exact (Hb _ Hk).
Qed.

Lemma lookup_speed_constructed_table_witness :
  exists d v,
    build_levels example_temp_levels example_fan_levels = OK d
    /\ lookup_speed d 70 = OK v
    /\ ((exists k, smallest_breakpoint_at_least d 70 k v)
        \/ (above_all_breakpoints d 70 /\ exists k, highest_breakpoint d k v))
    /\ (exists k, In (k, v) d)
    /\ forall bound, Forall (fun kv => (snd kv <= bound)%Q) d -> (v <= bound)%Q.
Proof.
  apply (lookup_speed_constructed_table example_temp_levels example_fan_levels 70).
  - vm_compute; reflexivity.
  - vm_compute; reflexivity.
  - apply nondecreasingb_sound; vm_compute; reflexivity.
  - apply forallb_nonneg; vm_compute; reflexivity.
Defined.

(** C1 fails on the program without the two conditions on the breakpoints.
    For the accepted configuration with the activation threshold (80) above
    the maximum (60) the breakpoints decrease; the smallest breakpoint at
    or above 60 degrees is 60, paired with speed 100, but the lookup at 60
    returns 50, the speed of the first key in insertion order. *)
Lemma inverted_table_lookup_returns_first_speed :
  exists d,
    curve_construction interp_samples inverted_params = OK d
    /\ smallest_breakpoint_at_least d 60 (inject_Z 60) (inject_Z 100)
    /\ lookup_speed d 60 = OK (inject_Z 50)
    /\ ~ (inject_Z 50 == inject_Z 100)%Q.
Proof.
  assert (H : match curve_construction interp_samples inverted_params with
              | OK d => lookup_speed d 60 = OK (inject_Z 50)
                        /\ last_item d = OK (inject_Z 60, inject_Z 100)
              | Raise _ => False
              end)
    by (vm_compute; split; reflexivity).
  destruct (curve_construction interp_samples inverted_params) as [d|e];
    [|contradiction].
  destruct H as [Hlookup Hlast].
  exists d. split; [reflexivity|]. split; [|split].
  - split; [apply last_item_in; exact Hlast|].
    split; [apply Qle_refl|].
    intros k' v' _ Hle. exact Hle.
  - exact Hlookup.
  - intros H. discriminate H.
Qed.

(** *** The lookup at the two thresholds *)

Lemma float_int_inject_Z (z : Z) : float_int (inject_Z z) = z.
Proof.
  unfold float_int; simpl. apply Z.quot_1_r.
Qed.

Lemma in_combine_nth {A B : Type} (l : list A) (l' : list B) (i : nat) (x : A) (y : B) :
  nth_error l i = Some x -> nth_error l' i = Some y -> In (x, y) (combine l l').
Proof.
  revert l' i; induction l as [|a l IH]; intros [|b l'] [|i] Hx Hy;
    try discriminate; simpl in *.
  - inversion Hx; inversion Hy; left; reflexivity.
  - right; eapply IH; eassumption.
Qed.

(** Increasing keys are distinct: a key has one entry. *)
Lemma increasing_keys_one_entry (d : levels) (k k' v v' : Q) :
  increasing (map fst d) ->
  In (k, v) d -> In (k', v') d -> (k == k')%Q -> v = v'.
Proof.
  induction d as [|[k0 v0] rest IH]; intros Hinc Hin Hin' Heq; [destruct Hin|].
  simpl in Hinc. apply increasing_cons_inv in Hinc as [Hinc Hlt].
  rewrite Forall_forall in Hlt.
  destruct Hin as [H|H], Hin' as [H'|H'].
  - inversion H; inversion H'; subst; reflexivity.
  - inversion H; subst. apply key_in_map_fst in H'. apply Hlt in H'.
    rewrite Heq in H'. exfalso; exact (Qlt_irrefl _ H').
  - inversion H'; subst. apply key_in_map_fst in H. apply Hlt in H.
    rewrite Heq in H. exfalso; exact (Qlt_irrefl _ H).
  - exact (IH Hinc H H' Heq).
Qed.

Lemma increasing_from_nonneg (k : Q) (keys : list Q) :
  increasing (k :: keys) -> (0 <= k)%Q -> Forall (fun x => (0 <= x)%Q) (k :: keys).
Proof.
  intros Hinc Hk. apply increasing_cons_inv in Hinc as [_ Hlt].
  constructor; [exact Hk|].
  apply Forall_forall. intros x Hx. rewrite Forall_forall in Hlt.
  apply Qlt_le_weak. eapply Qle_lt_trans; [exact Hk|apply Hlt; exact Hx].
Qed.

(** The lookup at the first and at the last breakpoint of a table built
    from strictly increasing breakpoints. *)
Lemma lookup_at_first_and_last_breakpoint (temp_levels fan_levels : list Q)
  (activate maximum : Z) (first_speed last_speed : Q) :
  List.length temp_levels = num_levels ->
  List.length fan_levels = num_levels ->
  increasing temp_levels ->
  0 <= activate ->
  nth_error temp_levels 0 = Some (inject_Z activate) ->
  nth_error temp_levels (num_levels - 1) = Some (inject_Z maximum) ->
  nth_error fan_levels 0 = Some first_speed ->
  nth_error fan_levels (num_levels - 1) = Some last_speed ->
  exists d,
    build_levels temp_levels fan_levels = OK d
    /\ lookup_speed d activate = OK first_speed
    /\ lookup_speed d maximum = OK last_speed.
Proof.
  intros Ht Hf Hinc Ha Ht0 Htn Hf0 Hfn.
  exists (combine temp_levels fan_levels).
  split; [apply build_levels_increasing; assumption|].
  assert (Hkeys : map fst (combine temp_levels fan_levels) = temp_levels)
    by (apply map_fst_combine; congruence).
  split.
  - destruct temp_levels as [|k0 tl]; [discriminate|].
    destruct fan_levels as [|s0 fl]; [discriminate|].
    simpl in Ht0, Hf0. inversion Ht0; inversion Hf0; subst.
    unfold lookup_speed, first_breakpoint. simpl.
    rewrite float_int_inject_Z, Z.leb_refl. simpl.
    rewrite Qeq_bool_refl. reflexivity.
  - pose proof (in_combine_nth _ _ _ _ _ Htn Hfn) as Hlast.
    assert (Hpos : Forall (fun kv => (0 <= fst kv)%Q) (combine temp_levels fan_levels)).
    { apply nonneg_keys_combine.
      destruct temp_levels as [|k0 tl]; [constructor|].
      apply increasing_from_nonneg; [exact Hinc|].
      simpl in Ht0. inversion Ht0; subst.
      change 0%Q with (inject_Z 0). rewrite <- Zle_Qle. exact Ha. }
    rewrite <- Hkeys in Hinc.
    pose proof (find_first_is_smallest _ maximum Hinc Hpos) as Hfind.
    unfold lookup_speed, first_breakpoint.
    destruct (find (fun kv => maximum <=? float_int (fst kv))
                (combine temp_levels fan_levels)) as [[k v]|]; simpl.
    + destruct Hfind as [(Hin & Hle & Hmin) Hget]. rewrite Hget.
      assert (Heq : (k == inject_Z maximum)%Q).
      { apply Qle_antisym; [|exact Hle].
        apply (Hmin _ _ Hlast). apply Qle_refl. }
      rewrite (increasing_keys_one_entry _ _ _ _ _ Hinc Hin Hlast Heq).
      reflexivity.
    + exfalso. apply (Qlt_irrefl (inject_Z maximum)).
      exact (Hfind _ _ Hlast).
Qed.

(** X21.  When the breakpoint array strictly increases from the activation
    threshold to the maximum, the lookup at the activation threshold gives
    the first speed sample and the lookup at the maximum gives the last.
    Whether [numpy.geomspace] returns such an array is a fact about its
    binary64 arithmetic and is not settled here. *)
Lemma lookup_speed_at_thresholds (temp_levels fan_levels : list Q)
  (activate maximum : Z) (first_speed last_speed : Q) :
  List.length temp_levels = num_levels ->
  List.length fan_levels = num_levels ->
  increasing temp_levels ->
  0 <= activate ->
  nth_error temp_levels 0 = Some (inject_Z activate) ->
  nth_error temp_levels (num_levels - 1) = Some (inject_Z maximum) ->
  nth_error fan_levels 0 = Some first_speed ->
  nth_error fan_levels (num_levels - 1) = Some last_speed ->
  exists d,
    build_levels temp_levels fan_levels = OK d
    /\ lookup_speed d activate = OK first_speed
    /\ lookup_speed d maximum = OK last_speed.
Proof.
  exact (lookup_at_first_and_last_breakpoint temp_levels fan_levels
           activate maximum first_speed last_speed).
Qed.

(** Both hypotheses on the breakpoints are needed.  The filter keeps the
    first key in insertion order, so on a decreasing table the match is the
    largest key; and [int] truncates toward zero, so a negative key passes
    the filter for a temperature above it. *)
Example lookup_speed_decreasing_table :
  lookup_speed [(inject_Z 80, inject_Z 50); (inject_Z 60, inject_Z 100)] 60
  = OK (inject_Z 50).
Proof. reflexivity. Qed.

Example lookup_speed_negative_breakpoint :
  lookup_speed [((-13) # 2, inject_Z 50); (inject_Z (-5), inject_Z 100)] (-6)
  = OK (inject_Z 50).
Proof. reflexivity. Qed.

(** ** Curve construction: lemmas *)

Lemma dict_set_nonempty (d : levels) (k v : Q) : dict_set d k v <> [].
Proof.
  destruct d as [|[k0 v0] rest]; simpl; [discriminate|].
  destruct (Qeq_bool k0 k); discriminate.
Qed.

(** The filling loop cannot fail on arrays that are long enough, whatever
    their order, and it never empties the table. *)
Lemma fill_levels_total (temp_levels fan_levels : list Q) :
  forall fuel i acc,
    (i + fuel <= List.length temp_levels)%nat ->
    (i + fuel <= List.length fan_levels)%nat ->
    exists d, fill_levels fuel i temp_levels fan_levels acc = OK d
              /\ (acc <> [] \/ fuel <> O -> d <> []).
Proof.
  induction fuel as [|fuel IH]; intros i acc Ht Hf.
  - exists acc; split; [reflexivity|]. intros [H|H]; [exact H|congruence].
  - step_fill_levels key speed Ek Es.
    destruct (IH (S i) (dict_set acc key speed)) as (d & Hd & Hne); try lia.
    exists d; split; [exact Hd|].
    intros _. apply Hne. left. apply dict_set_nonempty.
Qed.

Lemma build_levels_total (temp_levels fan_levels : list Q) :
  List.length temp_levels = num_levels ->
  List.length fan_levels = num_levels ->
  exists d, build_levels temp_levels fan_levels = OK d /\ d <> [].
Proof.
  intros Ht Hf.
  destruct (fill_levels_total temp_levels fan_levels num_levels 0 [])
    as (d & Hd & Hne); try lia.
  exists d; split; [exact Hd|]. apply Hne. right. discriminate.
Qed.

Lemma dict_get_of_found (d : levels) (f : Q * Q -> bool) (k v : Q) :
  find f d = Some (k, v) -> exists v', dict_get d k = Some v'.
Proof.
  induction d as [|[k0 v0] rest IH]; [discriminate|].
  simpl. destruct (f (k0, v0)).
  - intros H; inversion H; subst. rewrite Qeq_bool_refl. eauto.
  - intros H. destruct (Qeq_bool k0 k); eauto.
Qed.

(** On a non-empty table the lookup always returns a speed. *)
Lemma lookup_speed_total (d : levels) (t : Z) :
  d <> [] -> exists v, lookup_speed d t = OK v.
Proof.
  intros Hne. unfold lookup_speed, first_breakpoint.
  destruct (find (fun kv => t <=? float_int (fst kv)) d) as [[k v]|] eqn:E; simpl.
  - destruct (dict_get_of_found _ _ _ _ E) as (v' & Hv'). rewrite Hv'. eauto.
  - destruct (last_item_nonempty d Hne) as (kv & Hkv & _). rewrite Hkv. simpl. eauto.
Qed.

Lemma interp_samples_numpy : numpy_geomspace interp_samples.
Proof.
  split.
  - intros start stop num H. unfold interp_samples.
    destruct H as [H|H]; apply Qeq_bool_iff in H; rewrite H;
      [|rewrite orb_true_r]; reflexivity.
  - intros start stop num Hs _ Hp _. unfold interp_samples.
    assert (E1 : Qeq_bool start 0 = false).
    { destruct (Qeq_bool start 0) eqn:E; [|reflexivity].
      apply Qeq_bool_iff in E. rewrite E in Hs. exfalso; exact (Qlt_irrefl _ Hs). }
    assert (E2 : Qeq_bool stop 0 = false).
    { destruct (Qeq_bool stop 0) eqn:E; [|reflexivity].
      apply Qeq_bool_iff in E. rewrite E in Hp. exfalso; exact (Qlt_irrefl _ Hp). }
    rewrite E1, E2. simpl. eexists; split; [reflexivity|].
    rewrite length_map, length_seq. reflexivity.
Qed.

Lemma positive_threshold_Q (z : Z) :
  positive_threshold z ->
  (0 < inject_Z z)%Q /\ (inject_Z z <= inject_Z float_exact_bound)%Q.
Proof.
  intros [H1 H2]. split.
  - change 0%Q with (inject_Z 0). rewrite <- Zlt_Qlt. exact H1.
  - rewrite <- Zle_Qle. exact H2.
Qed.

(** A zero threshold is the one construction failure: [numpy.geomspace]
    refuses it with [ValueError]. *)
Lemma curve_construction_zero_endpoint :
  forall geomspace p,
    numpy_geomspace geomspace ->
    gpu_activate_fan_control_threshold p = 0 \/ gpu_max_temp_threshold p = 0 ->
    curve_construction geomspace p = Raise ValueError.
Proof.
  intros geomspace p [Hzero _] H. unfold curve_construction.
  rewrite Hzero; [reflexivity|].
  destruct H as [H|H]; rewrite H; [left|right]; reflexivity.
Qed.

Lemma curve_construction_positive :
  forall geomspace p,
    numpy_geomspace geomspace ->
    positive_threshold (gpu_activate_fan_control_threshold p) ->
    positive_threshold (gpu_max_temp_threshold p) ->
    positive_threshold (gpu_min_fan_speed_target p) ->
    exists d, curve_construction geomspace p = OK d /\ d <> [].
Proof.
  intros geomspace p [_ Hpos] Ha Hm Hf.
  apply positive_threshold_Q in Ha as [Ha1 Ha2].
  apply positive_threshold_Q in Hm as [Hm1 Hm2].
  apply positive_threshold_Q in Hf as [Hf1 Hf2].
  destruct (Hpos _ _ num_levels Ha1 Ha2 Hm1 Hm2) as (tl & Etl & Ltl).
  destruct (Hpos _ (inject_Z 100) num_levels Hf1 Hf2) as (fl & Efl & Lfl);
    [reflexivity|discriminate|].
  unfold curve_construction. rewrite Etl; simpl. rewrite Efl; simpl.
  apply build_levels_total; assumption.
Qed.

Lemma main_runs_loop :
  forall geomspace use_which params ticks final_ok d,
    check_dependencies use_which = true ->
    curve_construction geomspace (resolve_activate_threshold params) = OK d ->
    main geomspace use_which params ticks final_ok
    = match run_loop (resolve_activate_threshold params)
              (parse_ignored_gpus (resolve_activate_threshold params))
              d ticks initial_state with
      | Crashed e calls => Traceback e calls
      | Done _ calls => final_handback final_ok calls
      end.
Proof.
  intros geomspace use_which params ticks final_ok d Hdeps Hcurve.
  unfold main. rewrite Hdeps, Hcurve. reflexivity.
Qed.

(** ** Curve construction: no range check *)

(** C2, as the program has it.  Curve construction applies no range check
    and knows no configuration error: whenever the three thresholds are
    positive (and convert to binary64 exactly) a non-empty table is built
    and the decision loop runs over it, whether or not the activation
    threshold is below the maximum and the minimum speed below 100. *)
Theorem curve_construction_has_no_range_check :
  forall geomspace use_which params ticks final_ok,
    numpy_geomspace geomspace ->
    check_dependencies use_which = true ->
    positive_threshold
      (gpu_activate_fan_control_threshold (resolve_activate_threshold params)) ->
    positive_threshold (gpu_max_temp_threshold (resolve_activate_threshold params)) ->
    positive_threshold (gpu_min_fan_speed_target (resolve_activate_threshold params)) ->
    exists d,
      curve_construction geomspace (resolve_activate_threshold params) = OK d
      /\ d <> []
      /\ main geomspace use_which params ticks final_ok
         = match run_loop (resolve_activate_threshold params)
                   (parse_ignored_gpus (resolve_activate_threshold params))
                   d ticks initial_state with
           | Crashed e calls => Traceback e calls
           | Done _ calls => final_handback final_ok calls
           end.
Proof.
  intros geomspace use_which params ticks final_ok Hnp Hdeps Ha Hm Hf.
  destruct (curve_construction_positive geomspace _ Hnp Ha Hm Hf) as (d & Hd & Hne).
  exists d. split; [exact Hd|]. split; [exact Hne|].
  apply main_runs_loop; assumption.
Qed.

Lemma curve_construction_has_no_range_check_witness :
  exists d,
    curve_construction interp_samples (resolve_activate_threshold inverted_params)
    = OK d
    /\ d <> []
    /\ main interp_samples all_installed inverted_params [hot_tick] true
       = match run_loop (resolve_activate_threshold inverted_params)
                 (parse_ignored_gpus (resolve_activate_threshold inverted_params))
                 d [hot_tick] initial_state with
         | Crashed e calls => Traceback e calls
         | Done _ calls => final_handback true calls
         end.
Proof.
  apply (curve_construction_has_no_range_check
           interp_samples all_installed inverted_params [hot_tick] true).
  - exact interp_samples_numpy.
  - reflexivity.
  - vm_compute; split; [reflexivity|discriminate].
  - vm_compute; split; [reflexivity|discriminate].
  - vm_compute; split; [reflexivity|discriminate].
Defined.

(** C2 fails on the program: with the activation threshold (80) above the
    maximum (60), whatever samples [numpy.geomspace] returns, a table is
    built, the first iteration takes manual control and the process ends
    with status 0. *)
Lemma inverted_range_is_accepted :
  gpu_activate_fan_control_threshold inverted_params
  >= gpu_max_temp_threshold inverted_params
  /\ forall geomspace,
      numpy_geomspace geomspace ->
      exists d speed,
        curve_construction geomspace inverted_params = OK d
        /\ main geomspace all_installed inverted_params [hot_tick] true
           = Exit 0 [ToggleFanControl true; SetStaticFanSpeed speed;
                     ToggleFanControl false].
Proof.
  split; [vm_compute; discriminate|].
  intros geomspace Hnp.
  assert (Ha : positive_threshold
                 (gpu_activate_fan_control_threshold inverted_params))
    by (vm_compute; split; [reflexivity|discriminate]).
  assert (Hm : positive_threshold (gpu_max_temp_threshold inverted_params))
    by (vm_compute; split; [reflexivity|discriminate]).
  assert (Hf : positive_threshold (gpu_min_fan_speed_target inverted_params))
    by (vm_compute; split; [reflexivity|discriminate]).
  destruct (curve_construction_positive geomspace inverted_params Hnp Ha Hm Hf)
    as (d & Hd & Hne).
  destruct (lookup_speed_total d 85 Hne) as (v & Hv).
  exists d, (float_int v). split; [exact Hd|].
  rewrite (main_runs_loop geomspace all_installed inverted_params [hot_tick] true d);
    [|reflexivity|exact Hd].
  change (resolve_activate_threshold inverted_params) with inverted_params.
  unfold run_loop, tick.
  change (aggregate_tick (parse_ignored_gpus inverted_params) (batch hot_tick)
            (previous initial_state))
    with (OK ({| util := 90; temp := 85; idx := 0; name := "Tesla K80"%string |},
              {| util := 90; temp := 85; idx := 0; name := "Tesla K80"%string |})).
  cbv beta iota zeta delta [transition drive_fans ipmi_set_static_fan_speed bind
    is_none manual_activated_dt manual_met_idle_temp_dt stop_nvidia_smi previous
    temp util now toggle_ok speed_ok hot_tick inverted_params
    gpu_activate_fan_control_threshold andb negb orb Z.geb Z.compare
    Pos.compare Pos.compare_cont].
  rewrite Hv. reflexivity.
Qed.

(** ** Telemetry drain: lemmas *)

Lemma drain_line_ignored (ignored_gpus : list string) (line : string)
  (st : reading * reading) :
  is_ignored ignored_gpus line = true -> drain_line ignored_gpus line st = OK st.
Proof.
  intros H; unfold drain_line; rewrite H; reflexivity.
Qed.

Lemma drain_line_synced (ignored_gpus : list string) (line : string)
  (st st' : reading * reading) :
  is_ignored ignored_gpus line = false ->
  drain_line ignored_gpus line st = OK st' -> snd st' = fst st'.
Proof.
  intros Hig; unfold drain_line; rewrite Hig.
  destruct (temperature_field (clean_fields line)) as [t|e]; simpl; [|discriminate].
  destruct (if t >? temp (fst st) then read_record (clean_fields line)
            else OK (fst st)) as [h|e]; simpl; [|discriminate].
  intros H; inversion H; reflexivity.
Qed.

Lemma drain_queue_app (ignored_gpus : list string) (before after : list string)
  (st : reading * reading) :
  drain_queue ignored_gpus (before ++ after) st
  = (st' <- drain_queue ignored_gpus before st ;;
     drain_queue ignored_gpus after st').
Proof.
  revert st; induction before as [|line before IH]; intros st; [reflexivity|].
  simpl. destruct (drain_line ignored_gpus line st) as [st1|e]; simpl;
    [apply IH|reflexivity].
Qed.

(** Once the stored values equal the running maximum they stay equal. *)
Lemma drain_queue_keeps_synced (ignored_gpus : list string) (lines : list string) :
  forall st st',
    snd st = fst st ->
    drain_queue ignored_gpus lines st = OK st' -> snd st' = fst st'.
Proof.
  induction lines as [|line lines IH]; intros st st' Hsync H.
  - simpl in H; inversion H; subst; exact Hsync.
  - simpl in H.
    destruct (drain_line ignored_gpus line st) as [st1|e] eqn:E; simpl in H;
      [|discriminate].
    apply (IH st1 st'); [|exact H].
    destruct (is_ignored ignored_gpus line) eqn:Hig.
    + rewrite drain_line_ignored in E by exact Hig.
      inversion E; subst; exact Hsync.
    + eapply drain_line_synced; eassumption.
Qed.

(** A processed record leaves the stored values equal to the aggregate. *)
Lemma drain_queue_syncs (ignored_gpus : list string) (lines : list string) :
  forall st st',
    (exists line, In line lines /\ is_ignored ignored_gpus line = false) ->
    drain_queue ignored_gpus lines st = OK st' -> snd st' = fst st'.
Proof.
  induction lines as [|line lines IH]; intros st st' (l & Hin & Hl) H;
    [destruct Hin|].
  simpl in H.
  destruct (drain_line ignored_gpus line st) as [st1|e] eqn:E; simpl in H;
    [|discriminate].
  destruct (is_ignored ignored_gpus line) eqn:Hig.
  - destruct Hin as [Heq|Hin]; [subst; congruence|].
    apply (IH st1 st'); [exists l; split; assumption|exact H].
  - apply (drain_queue_keeps_synced ignored_gpus lines st1 st'); [|exact H].
    eapply drain_line_synced; eassumption.
Qed.

(** ** Decision loop: lemmas *)

Lemma transition_previous (p : runtime_params) (inp : tick_input)
  (highest : reading) (s : loop_state) :
  previous (fst (transition p inp highest s)) = previous s.
Proof.
  unfold transition.
  destruct (is_none (manual_activated_dt s)
            && (temp highest >=? gpu_activate_fan_control_threshold p));
    [reflexivity|].
  destruct (negb (is_none (manual_activated_dt s))
            && is_none (manual_met_idle_temp_dt s)
            && (temp highest <=? gpu_idle_temp_target p));
    [reflexivity|].
  destruct (manual_met_idle_temp_dt s) as [met|]; [|reflexivity].
  destruct (handoff_due p (now inp) met (util highest)); reflexivity.
Qed.

Lemma drive_fans_keeps (d : levels) (inp : tick_input) (highest : reading)
  (s s' : loop_state) (calls calls' : list ipmi_call) :
  drive_fans d inp highest s calls = Done s' calls' ->
  previous s' = previous s
  /\ manual_activated_dt s' = manual_activated_dt s
  /\ manual_met_idle_temp_dt s' = manual_met_idle_temp_dt s.
Proof.
  unfold drive_fans.
  destruct (manual_activated_dt s) as [a|] eqn:Ea.
  - destruct (ipmi_set_static_fan_speed (speed_ok inp) d (temp highest))
      as [[call ok]|e]; [|discriminate].
    intros H; inversion H; subst; simpl. auto.
  - intros H; inversion H; subst. auto.
Qed.

(** What an iteration that completes did: it drained the queue, took one
    transition and, under manual control, drove the fans. *)
Lemma tick_done_inv (p : runtime_params) (ignored_gpus : list string) (d : levels)
  (inp : tick_input) (s s' : loop_state) (calls : list ipmi_call) :
  tick p ignored_gpus d inp s = Done s' calls ->
  exists highest prev,
    aggregate_tick ignored_gpus (batch inp) (previous s) = OK (highest, prev)
    /\ previous s' = prev
    /\ drive_fans d inp highest
         (fst (transition p inp highest
                 {| previous := prev;
                    manual_activated_dt := manual_activated_dt s;
                    manual_met_idle_temp_dt := manual_met_idle_temp_dt s;
                    stop_nvidia_smi := stop_nvidia_smi s |}))
         (snd (transition p inp highest
                 {| previous := prev;
                    manual_activated_dt := manual_activated_dt s;
                    manual_met_idle_temp_dt := manual_met_idle_temp_dt s;
                    stop_nvidia_smi := stop_nvidia_smi s |}))
       = Done s' calls.
Proof.
  unfold tick.
  destruct (aggregate_tick ignored_gpus (batch inp) (previous s))
    as [[highest prev]|e]; [|discriminate].
  intros H. exists highest, prev. split; [reflexivity|].
  destruct (transition p inp highest _) as [s2 calls2] eqn:Et.
  simpl. split; [|exact H].
  apply drive_fans_keeps in H as (Hp & _).
  rewrite Hp. change s2 with (fst (s2, calls2)). rewrite <- Et.
  apply transition_previous.
Qed.

(** ** Sticky aggregation *)

(** X22.  Where sticky aggregation holds: when the queue is empty at tick N, the
    aggregate used at tick N equals the aggregate of tick N-1, provided
    tick N-1 found the queue empty too or processed at least one record
    that is not on the ignore list. *)
Lemma sticky_aggregate_after_processed_tick :
  forall p ignored_gpus d inp_before inp s0 s1 calls aggregate stored,
    tick p ignored_gpus d inp_before s0 = Done s1 calls ->
    aggregate_tick ignored_gpus (batch inp_before) (previous s0)
    = OK (aggregate, stored) ->
    (batch inp_before = []
     \/ exists line, In line (batch inp_before)
                     /\ is_ignored ignored_gpus line = false) ->
    batch inp = [] ->
    aggregate_tick ignored_gpus (batch inp) (previous s1) = OK (aggregate, aggregate).
Proof.
  intros p ig d inp0 inp s0 s1 calls agg stored Htick Hagg Hcase Hempty.
  destruct (tick_done_inv _ _ _ _ _ _ _ Htick) as (h & pr & Hagg' & Hprev & _).
  rewrite Hagg in Hagg'. injection Hagg' as Hh Hpr.
  rewrite <- Hpr in Hprev. clear Hh Hpr h pr.
  assert (Hsync : stored = agg).
  { destruct Hcase as [He|Hline].
    - rewrite He in Hagg. simpl in Hagg. inversion Hagg; subst. reflexivity.
    - unfold aggregate_tick in Hagg.
      destruct (batch inp0) as [|l ls] eqn:Eb.
      + destruct Hline as (line & [] & _).
      + apply (drain_queue_syncs ig (l :: ls) _ _ Hline Hagg). }
  rewrite Hempty, Hprev, Hsync. reflexivity.
Qed.

Lemma sticky_aggregate_after_processed_tick_witness :
  aggregate_tick [] (batch quiet_tick)
    (previous {| previous := mild_reading;
                 manual_activated_dt := None;
                 manual_met_idle_temp_dt := None;
                 stop_nvidia_smi := false |})
  = OK (mild_reading, mild_reading).
Proof.
  apply (sticky_aggregate_after_processed_tick
           (resolve_activate_threshold default_params) [] example_levels
           mild_tick quiet_tick initial_state
           {| previous := mild_reading;
              manual_activated_dt := None;
              manual_met_idle_temp_dt := None;
              stop_nvidia_smi := false |}
           [] mild_reading mild_reading).
  - vm_compute; reflexivity.
  - vm_compute; reflexivity.
  - right. exists "0, Tesla K80, 50, 5"%string. split; [left|]; reflexivity.
  - reflexivity.
Defined.

(** C3 fails on the program.  GPU 1 is ignored; tick 1 sees GPU 0 at 50
    degrees, tick 2 sees only GPU 1 and uses the zero aggregate although
    nothing was looked at, tick 3 finds the queue empty and uses the
    aggregate of tick 1, not of tick 2.  No tick takes manual control, so
    the table plays no part. *)
Lemma sticky_aggregate_skips_ignored_tick :
  exists s1 s2,
    tick params_ignoring_gpu1 (parse_ignored_gpus params_ignoring_gpu1)
      example_levels mild_tick initial_state = Done s1 []
    /\ tick params_ignoring_gpu1 (parse_ignored_gpus params_ignoring_gpu1)
         example_levels ignored_only_tick s1 = Done s2 []
    /\ aggregate_tick (parse_ignored_gpus params_ignoring_gpu1)
         (batch ignored_only_tick) (previous s1)
       = OK (zero_reading, mild_reading)
    /\ batch quiet_tick = []
    /\ aggregate_tick (parse_ignored_gpus params_ignoring_gpu1)
         (batch quiet_tick) (previous s2)
       = OK (mild_reading, mild_reading)
    /\ mild_reading <> zero_reading.
Proof.
  exists {| previous := mild_reading;
            manual_activated_dt := None;
            manual_met_idle_temp_dt := None;
            stop_nvidia_smi := false |},
         {| previous := mild_reading;
            manual_activated_dt := None;
            manual_met_idle_temp_dt := None;
            stop_nvidia_smi := false |}.
  repeat split; try (vm_compute; reflexivity).
  readings_differ.
Qed.

(** ** Ignore list *)

(** X23.  Where the ignore list holds: a record whose index field is on the list
    does not influence the tick, whatever it reports, as long as the batch
    holds another record: the aggregate and the stored values (or the
    exception raised by another record) are those of the batch without it. *)
Lemma ignored_record_does_not_influence :
  forall ignored_gpus before line after stored,
    is_ignored ignored_gpus line = true ->
    before ++ after <> [] ->
    aggregate_tick ignored_gpus (before ++ line :: after) stored
    = aggregate_tick ignored_gpus (before ++ after) stored.
Proof.
  intros ig before line after stored Hig Hne.
  unfold aggregate_tick.
  destruct (before ++ line :: after) as [|x xs] eqn:E1;
    [destruct before; discriminate|].
  destruct (before ++ after) as [|y ys] eqn:E2; [congruence|].
  rewrite <- E1, <- E2, !drain_queue_app.
  destruct (drain_queue ig before (zero_reading, stored)) as [st|e]; simpl;
    [|reflexivity].
  rewrite drain_line_ignored by exact Hig. reflexivity.
Qed.

Lemma ignored_record_does_not_influence_witness :
  aggregate_tick ["1"%string]
    (["0, Tesla K80, 70, 15"%string] ++ "1, Tesla P40, 90, 50"%string :: [])
    mild_reading
  = aggregate_tick ["1"%string] (["0, Tesla K80, 70, 15"%string] ++ []) mild_reading.
Proof.
  apply (ignored_record_does_not_influence ["1"%string]
           ["0, Tesla K80, 70, 15"%string] "1, Tesla P40, 90, 50"%string []
           mild_reading).
  - reflexivity.
  - discriminate.
Defined.

(** C4 fails on the program when the ignored record is alone in the queue:
    with it the tick uses the zero aggregate, without it the tick carries
    the stored values forward. *)
Lemma lone_ignored_record_zeroes_the_aggregate :
  is_ignored ["1"%string] "1, Tesla P40, 90, 50"%string = true
  /\ aggregate_tick ["1"%string] ["1, Tesla P40, 90, 50"%string] mild_reading
     = OK (zero_reading, mild_reading)
  /\ aggregate_tick ["1"%string] [] mild_reading = OK (mild_reading, mild_reading)
  /\ zero_reading <> mild_reading.
Proof.
  repeat split; try reflexivity.
  readings_differ.
Qed.

(** Under manual control with GPU 0 at 85 degrees, a tick that finds only
    the ignored GPU's record sees the zero aggregate: it records the idle
    temperature as met. *)
Example lone_ignored_record_marks_idle :
  exists s' calls,
    tick params_ignoring_gpu1 (parse_ignored_gpus params_ignoring_gpu1)
      example_levels ignored_only_tick
      {| previous := hot_reading;
         manual_activated_dt := Some 0;
         manual_met_idle_temp_dt := None;
         stop_nvidia_smi := false |}
    = Done s' calls
    /\ previous s' = hot_reading
    /\ manual_met_idle_temp_dt s' = Some 1000000.
Proof.
  eexists; eexists; split; [vm_compute; reflexivity|].
  split; reflexivity.
Qed.

(** ** Batches without a reading above zero *)

Lemma drain_queue_zero (ignored_gpus : list string) (lines : list string) :
  forall st,
    fst st = zero_reading ->
    Forall (fun line => is_ignored ignored_gpus line = true \/ not_above_zero line)
      lines ->
    drain_queue ignored_gpus lines st
    = OK (zero_reading,
          if forallb (is_ignored ignored_gpus) lines then snd st else zero_reading).
Proof.
  induction lines as [|line lines IH]; intros [h pr] Hz Hall; simpl in Hz; subst h.
  - reflexivity.
  - inversion Hall as [|? ? Hline Hrest]; subst.
    cbn [drain_queue forallb snd].
    destruct (is_ignored ignored_gpus line) eqn:Hig.
    + rewrite drain_line_ignored by exact Hig. simpl.
      apply (IH (zero_reading, pr)); [reflexivity|exact Hrest].
    + destruct Hline as [Hline|(t & Ht & Hle)]; [congruence|].
      unfold drain_line. rewrite Hig, Ht. simpl.
      replace (t >? 0) with false by (rewrite Z.gtb_ltb; symmetry; apply Z.ltb_ge; exact Hle).
      simpl. rewrite (IH (zero_reading, zero_reading)); [|reflexivity|exact Hrest].
      simpl. destruct (forallb (is_ignored ignored_gpus) lines); reflexivity.
Qed.

(** C10, as the program has it.  When the queue is not empty but every
    record is ignored or reports a temperature not above 0, the tick's
    aggregate is (0, 0, 0, empty name) rather than the value carried
    forward.  The stored values are left unchanged when every record is
    ignored; a record that is processed overwrites them with that zero
    aggregate. *)
Theorem batch_without_reading_gives_zero_aggregate :
  forall ignored_gpus lines stored,
    lines <> [] ->
    Forall (fun line => is_ignored ignored_gpus line = true \/ not_above_zero line)
      lines ->
    aggregate_tick ignored_gpus lines stored
    = OK (zero_reading,
          if forallb (is_ignored ignored_gpus) lines then stored else zero_reading).
Proof.
  intros ig lines stored Hne Hall.
  unfold aggregate_tick. destruct lines as [|l ls]; [congruence|].
  apply (drain_queue_zero ig (l :: ls) (zero_reading, stored));
    [reflexivity|exact Hall].
Qed.

Lemma batch_without_reading_gives_zero_aggregate_witness :
  aggregate_tick ["1"%string]
    ["1, Tesla P40, 90, 50"%string; "1, Tesla P40, 91, 55"%string] mild_reading
  = OK (zero_reading,
        if forallb (is_ignored ["1"%string])
             ["1, Tesla P40, 90, 50"%string; "1, Tesla P40, 91, 55"%string]
        then mild_reading else zero_reading).
Proof.
  apply (batch_without_reading_gives_zero_aggregate ["1"%string]
           ["1, Tesla P40, 90, 50"%string; "1, Tesla P40, 91, 55"%string]
           mild_reading).
  - discriminate.
  - repeat constructor.
Defined.

(** C10 fails on the program in its second case: a record that is not
    ignored and reports 0 degrees resets the stored values to zero. *)
Lemma zero_degree_record_overwrites_stored_values :
  is_ignored [] "0, Tesla K80, 0, 0"%string = false
  /\ not_above_zero "0, Tesla K80, 0, 0"%string
  /\ aggregate_tick [] ["0, Tesla K80, 0, 0"%string] mild_reading
     = OK (zero_reading, zero_reading)
  /\ zero_reading <> mild_reading.
Proof.
  split; [reflexivity|]. split; [exists 0; split; [reflexivity|lia]|].
  split; [reflexivity|]. readings_differ.
Qed.

(** ** Malformed telemetry *)

Lemma bind_raise_inv {A B : Type} (r : result A) (k : A -> result B)
  (e : py_exception) :
  bind r k = Raise e -> r = Raise e \/ exists a, r = OK a /\ k a = Raise e.
Proof.
  destruct r as [a|e']; simpl; intros H.
  - right; exists a; split; [reflexivity|exact H].
  - left; inversion H; reflexivity.
Qed.

Lemma index_exceptions {A : Type} (xs : list A) (i : nat) (e : py_exception) :
  index xs i = Raise e -> e = IndexError.
Proof.
  unfold index. destruct (nth_error xs i); intros H; inversion H; reflexivity.
Qed.

Lemma int_of_str_exceptions (str : string) (e : py_exception) :
  int_of_str str = Raise e -> e = ValueError.
Proof.
  unfold int_of_str. destruct (py_int str); intros H; inversion H; reflexivity.
Qed.

Lemma temperature_field_exceptions (clean_data : list string) (e : py_exception) :
  temperature_field clean_data = Raise e -> e = IndexError \/ e = ValueError.
Proof.
  unfold temperature_field. intros H.
  apply bind_raise_inv in H as [H|(c2 & _ & H)].
  - left; exact (index_exceptions _ _ _ H).
  - right; exact (int_of_str_exceptions _ _ H).
Qed.

Lemma read_record_exceptions (clean_data : list string) (e : py_exception) :
  read_record clean_data = Raise e -> e = IndexError \/ e = ValueError.
Proof.
  unfold read_record. intros H.
  apply bind_raise_inv in H as [H|(c0 & _ & H)];
    [left; exact (index_exceptions _ _ _ H)|].
  apply bind_raise_inv in H as [H|(i & _ & H)];
    [right; exact (int_of_str_exceptions _ _ H)|].
  apply bind_raise_inv in H as [H|(n & _ & H)];
    [left; exact (index_exceptions _ _ _ H)|].
  apply bind_raise_inv in H as [H|(t & _ & H)];
    [exact (temperature_field_exceptions _ _ H)|].
  apply bind_raise_inv in H as [H|(c3 & _ & H)];
    [left; exact (index_exceptions _ _ _ H)|].
  apply bind_raise_inv in H as [H|(u & _ & H)];
    [right; exact (int_of_str_exceptions _ _ H)|].
  discriminate.
Qed.

(** A line with fewer than three fields has no temperature to index. *)
Lemma short_line_raises (line : string) (highest_temp : Z) :
  (List.length (clean_fields line) < 3)%nat ->
  raises_on line highest_temp IndexError.
Proof.
  intros Hlen. left. unfold temperature_field, index.
  destruct (nth_error (clean_fields line) 2) eqn:E; [|reflexivity].
  assert (nth_error (clean_fields line) 2 <> None) as Hsome by congruence.
  apply nth_error_Some in Hsome. lia.
Qed.

(** A temperature field that [int] refuses. *)
Lemma bad_temperature_raises (line c2 : string) (highest_temp : Z) :
  nth_error (clean_fields line) 2 = Some c2 ->
  py_int c2 = None ->
  raises_on line highest_temp ValueError.
Proof.
  intros Hc2 Hint. left. unfold temperature_field, index, int_of_str.
  rewrite Hc2; simpl. rewrite Hint. reflexivity.
Qed.

Lemma drain_line_raises (ignored_gpus : list string) (line : string)
  (st : reading * reading) (e : py_exception) :
  is_ignored ignored_gpus line = false ->
  raises_on line (temp (fst st)) e ->
  drain_line ignored_gpus line st = Raise e.
Proof.
  intros Hig [Ht|(t & Ht & Hlt & Hr)]; unfold drain_line; rewrite Hig, Ht; simpl.
  - reflexivity.
  - replace (t >? temp (fst st)) with true
      by (rewrite Z.gtb_ltb; symmetry; apply Z.ltb_lt; exact Hlt).
    rewrite Hr. reflexivity.
Qed.

Lemma aggregate_tick_raises (ignored_gpus : list string)
  (before after : list string) (line : string) (stored : reading)
  (st : reading * reading) (e : py_exception) :
  drain_queue ignored_gpus before (zero_reading, stored) = OK st ->
  is_ignored ignored_gpus line = false ->
  raises_on line (temp (fst st)) e ->
  aggregate_tick ignored_gpus (before ++ line :: after) stored = Raise e.
Proof.
  intros Hbefore Hig Hraise. unfold aggregate_tick.
  destruct (before ++ line :: after) as [|x xs] eqn:E;
    [destruct before; discriminate|].
  rewrite <- E, drain_queue_app, Hbefore. simpl.
  rewrite (drain_line_raises _ _ _ _ Hig Hraise). reflexivity.
Qed.

(** C9, as the program has it.  A record that is not on the ignore list and
    whose temperature field is missing or not an integer (or whose
    temperature is a new maximum while its index or utilization cannot be
    read) is not skipped: the drain raises, the iteration ends with that
    exception before any command is sent, and the loop runs no further
    iteration. *)
Theorem malformed_record_stops_the_loop :
  forall p ignored_gpus d inp s before line after st e later,
    batch inp = before ++ line :: after ->
    drain_queue ignored_gpus before (zero_reading, previous s) = OK st ->
    is_ignored ignored_gpus line = false ->
    raises_on line (temp (fst st)) e ->
    tick p ignored_gpus d inp s = Crashed e []
    /\ run_loop p ignored_gpus d (inp :: later) s = Crashed e []
    /\ (e = IndexError \/ e = ValueError).
Proof.
  intros p ig d inp s before line after st e later Hb Hbefore Hig Hraise.
  assert (Htick : tick p ig d inp s = Crashed e []).
  { unfold tick. rewrite Hb.
    rewrite (aggregate_tick_raises _ _ _ _ _ _ _ Hbefore Hig Hraise). reflexivity. }
  split; [exact Htick|]. split; [simpl; rewrite Htick; reflexivity|].
  destruct Hraise as [Ht|(t & _ & _ & Hr)].
  - exact (temperature_field_exceptions _ _ Ht).
  - exact (read_record_exceptions _ _ Hr).
Qed.

Lemma malformed_record_stops_the_loop_witness :
  tick (resolve_activate_threshold default_params) [] example_levels
    truncated_tick initial_state = Crashed IndexError []
  /\ run_loop (resolve_activate_threshold default_params) [] example_levels
       (truncated_tick :: [quiet_tick]) initial_state = Crashed IndexError []
  /\ (IndexError = IndexError \/ IndexError = ValueError).
Proof.
  apply (malformed_record_stops_the_loop
           (resolve_activate_threshold default_params) [] example_levels
           truncated_tick initial_state
           ["0, Tesla K80, 50, 5"%string] "1, Tesla P40"%string []
           (mild_reading, mild_reading) IndexError [quiet_tick]).
  - reflexivity.
  - reflexivity.
  - reflexivity.
  - apply short_line_raises. vm_compute. lia.
Defined.

(** C9 fails on the program: a record whose temperature reads [[N/A]] makes
    the first iteration raise [ValueError]; the second iteration and the
    terminal hand-back are never reached. *)
Lemma garbled_record_ends_the_process :
  temperature_field (clean_fields "0, Tesla K80, [N/A], 15"%string)
  = Raise ValueError
  /\ forall geomspace,
      numpy_geomspace geomspace ->
      main geomspace all_installed default_params [garbled_tick; quiet_tick] true
      = Traceback ValueError [].
Proof.
  split; [reflexivity|].
  intros geomspace Hnp.
  assert (Ha : positive_threshold
                 (gpu_activate_fan_control_threshold
                    (resolve_activate_threshold default_params)))
    by (vm_compute; split; [reflexivity|discriminate]).
  assert (Hm : positive_threshold
                 (gpu_max_temp_threshold
                    (resolve_activate_threshold default_params)))
    by (vm_compute; split; [reflexivity|discriminate]).
  assert (Hf : positive_threshold
                 (gpu_min_fan_speed_target
                    (resolve_activate_threshold default_params)))
    by (vm_compute; split; [reflexivity|discriminate]).
  destruct (curve_construction_positive geomspace
              (resolve_activate_threshold default_params) Hnp Ha Hm Hf)
    as (d & Hd & _).
  rewrite (main_runs_loop geomspace all_installed default_params _ true d);
    [|reflexivity|exact Hd].
  reflexivity.
Qed.

(** ** State machine *)

Lemma transition_idle_implies_manual (p : runtime_params) (inp : tick_input)
  (highest : reading) (s : loop_state) :
  idle_implies_manual s ->
  idle_implies_manual (fst (transition p inp highest s)).
Proof.
  unfold idle_implies_manual, transition. intros Hinv.
  destruct (manual_activated_dt s) as [a|] eqn:Ea; simpl.
  - destruct (manual_met_idle_temp_dt s) as [met|] eqn:Em; simpl.
    + destruct (handoff_due p (now inp) met (util highest)); simpl; auto.
      rewrite Ea; discriminate.
    + destruct (temp highest <=? gpu_idle_temp_target p); simpl; auto.
      discriminate.
  - rewrite (Hinv eq_refl).
    destruct (temp highest >=? gpu_activate_fan_control_threshold p); simpl; auto.
Qed.

Lemma reachable_idle_implies_manual (p : runtime_params)
  (ignored_gpus : list string) (d : levels) (s : loop_state) :
  reachable p ignored_gpus d s -> idle_implies_manual s.
Proof.
  induction 1 as [|s inp s' calls _ IH Htick].
  - intros _; reflexivity.
  - destruct (tick_done_inv _ _ _ _ _ _ _ Htick) as (h & pr & _ & _ & Hdrive).
    apply drive_fans_keeps in Hdrive as (_ & Ha & Hm).
    unfold idle_implies_manual. rewrite Ha, Hm.
    apply transition_idle_implies_manual. exact IH.
Qed.

(** Under manual control with the idle timestamp set, the transition looks
    at the clock and the utilization only. *)
Lemma transition_idle_pending (p : runtime_params) (inp : tick_input)
  (highest : reading) (s : loop_state) (activated met : Z) :
  manual_activated_dt s = Some activated ->
  manual_met_idle_temp_dt s = Some met ->
  transition p inp highest s
  = if handoff_due p (now inp) met (util highest) then
      ({| previous := previous s;
          manual_activated_dt := None;
          manual_met_idle_temp_dt := None;
          stop_nvidia_smi := stop_nvidia_smi s || negb (toggle_ok inp) |},
       [ToggleFanControl false])
    else (s, []).
Proof.
  intros Ha Hm. unfold transition. rewrite Ha, Hm. reflexivity.
Qed.

Lemma idle_pending_state_reachable :
  reachable (resolve_activate_threshold default_params) [] example_levels
    idle_pending_state.
Proof.
  apply (reachable_tick _ _ _
           {| previous := hot_reading;
              manual_activated_dt := Some 0;
              manual_met_idle_temp_dt := None;
              stop_nvidia_smi := false |}
           idle_tick idle_pending_state [SetStaticFanSpeed 50]).
  - apply (reachable_tick _ _ _ initial_state hot_tick _
             [ToggleFanControl true; SetStaticFanSpeed 100]).
    + apply reachable_initial.
    + vm_compute; reflexivity.
  - vm_compute; reflexivity.
Qed.

(** ** No re-arm of the idle timestamp *)

(** C6.  In every reachable state whose idle timestamp is set, an iteration
    that completes leaves the timestamp and the manual-control flag as they
    were, whatever temperature it saw, unless the hand-off condition
    (elapsed time since that timestamp, and utilization) holds; then it
    releases control and clears both.  Nothing else clears the timestamp,
    and the interval is always measured from the original one. *)
Theorem idle_timestamp_is_not_rearmed :
  forall p ignored_gpus d s inp s' calls met,
    reachable p ignored_gpus d s ->
    manual_met_idle_temp_dt s = Some met ->
    tick p ignored_gpus d inp s = Done s' calls ->
    exists highest stored,
      aggregate_tick ignored_gpus (batch inp) (previous s) = OK (highest, stored)
      /\ ((handoff_due p (now inp) met (util highest) = false
           /\ manual_met_idle_temp_dt s' = Some met
           /\ manual_activated_dt s' = manual_activated_dt s)
          \/ (handoff_due p (now inp) met (util highest) = true
              /\ manual_met_idle_temp_dt s' = None
              /\ manual_activated_dt s' = None
              /\ In (ToggleFanControl false) calls)).
Proof.
  intros p ig d s inp s' calls met Hreach Hmet Htick.
  pose proof (reachable_idle_implies_manual _ _ _ _ Hreach) as Hinv.
  destruct (manual_activated_dt s) as [activated|] eqn:Ha;
    [|rewrite (Hinv Ha) in Hmet; discriminate].
  destruct (tick_done_inv _ _ _ _ _ _ _ Htick) as (h & pr & Hagg & _ & Hdrive).
  exists h, pr. split; [exact Hagg|].
  rewrite Ha, Hmet in Hdrive.
  rewrite (transition_idle_pending p inp h
             {| previous := pr;
                manual_activated_dt := Some activated;
                manual_met_idle_temp_dt := Some met;
                stop_nvidia_smi := stop_nvidia_smi s |}
             activated met eq_refl eq_refl) in Hdrive.
  destruct (handoff_due p (now inp) met (util h)); [right|left];
    (split; [reflexivity|]).
  - simpl in Hdrive. unfold drive_fans in Hdrive. simpl in Hdrive.
    inversion Hdrive; subst. simpl. repeat split. left; reflexivity.
  - simpl in Hdrive. apply drive_fans_keeps in Hdrive as (_ & Ha' & Hm').
    simpl in Ha', Hm'. split; assumption.
Qed.

Lemma idle_timestamp_is_not_rearmed_witness :
  exists highest stored,
    aggregate_tick [] (batch rebound_tick) (previous idle_pending_state)
    = OK (highest, stored)
    /\ ((handoff_due (resolve_activate_threshold default_params)
           (now rebound_tick) 1000000 (util highest) = false
         /\ manual_met_idle_temp_dt
              {| previous := {| util := 30; temp := 50; idx := 0;
                                name := "Tesla K80"%string |};
                 manual_activated_dt := Some 0;
                 manual_met_idle_temp_dt := Some 1000000;
                 stop_nvidia_smi := false |} = Some 1000000
         /\ manual_activated_dt
              {| previous := {| util := 30; temp := 50; idx := 0;
                                name := "Tesla K80"%string |};
                 manual_activated_dt := Some 0;
                 manual_met_idle_temp_dt := Some 1000000;
                 stop_nvidia_smi := false |}
            = manual_activated_dt idle_pending_state)
        \/ (handoff_due (resolve_activate_threshold default_params)
              (now rebound_tick) 1000000 (util highest) = true
            /\ manual_met_idle_temp_dt
                 {| previous := {| util := 30; temp := 50; idx := 0;
                                   name := "Tesla K80"%string |};
                    manual_activated_dt := Some 0;
                    manual_met_idle_temp_dt := Some 1000000;
                    stop_nvidia_smi := false |} = None
            /\ manual_activated_dt
                 {| previous := {| util := 30; temp := 50; idx := 0;
                                   name := "Tesla K80"%string |};
                    manual_activated_dt := Some 0;
                    manual_met_idle_temp_dt := Some 1000000;
                    stop_nvidia_smi := false |} = None
            /\ In (ToggleFanControl false) [SetStaticFanSpeed 50])).
Proof.
  apply (idle_timestamp_is_not_rearmed
           (resolve_activate_threshold default_params) [] example_levels
           idle_pending_state rebound_tick
           {| previous := {| util := 30; temp := 50; idx := 0;
                             name := "Tesla K80"%string |};
              manual_activated_dt := Some 0;
              manual_met_idle_temp_dt := Some 1000000;
              stop_nvidia_smi := false |}
           [SetStaticFanSpeed 50] 1000000).
  - exact idle_pending_state_reachable.
  - reflexivity.
  - vm_compute; reflexivity.
Defined.

(** The scenario of the stale timestamp: idle temperature met after one second, a
    rebound to 50 degrees after five, a dip after eleven.  The dip hands
    control back at once, because the ten seconds are counted from the
    first timestamp. *)
Example stale_timestamp_hands_off :
  exists s calls,
    run_loop (resolve_activate_threshold default_params) [] example_levels
      [hot_tick; idle_tick; rebound_tick; dip_tick_release_fails] initial_state
    = Done s calls
    /\ manual_activated_dt s = None
    /\ manual_met_idle_temp_dt s = None
    /\ last calls (ToggleFanControl true) = ToggleFanControl false.
Proof.
  eexists; eexists; split; [vm_compute; reflexivity|].
  repeat split.
Qed.

(** ** Hand-off with a failing release *)

(** C7.  When the hand-off fires (manual control, idle timestamp set,
    interval elapsed, utilization low), the iteration sends the release
    command and clears both timestamps whether or not the command
    succeeded; a failed command additionally sets the stop request. *)
Theorem handoff_clears_state_whatever_the_sink_says :
  forall p ignored_gpus d inp s highest stored activated met,
    aggregate_tick ignored_gpus (batch inp) (previous s) = OK (highest, stored) ->
    manual_activated_dt s = Some activated ->
    manual_met_idle_temp_dt s = Some met ->
    handoff_due p (now inp) met (util highest) = true ->
    exists s',
      tick p ignored_gpus d inp s = Done s' [ToggleFanControl false]
      /\ manual_activated_dt s' = None
      /\ manual_met_idle_temp_dt s' = None
      /\ stop_nvidia_smi s' = (stop_nvidia_smi s || negb (toggle_ok inp))
      /\ (toggle_ok inp = false -> stop_nvidia_smi s' = true).
Proof.
  intros p ig d inp s h stored activated met Hagg Ha Hm Hdue.
  unfold tick. rewrite Hagg, Ha, Hm.
  rewrite (transition_idle_pending p inp h
             {| previous := stored;
                manual_activated_dt := Some activated;
                manual_met_idle_temp_dt := Some met;
                stop_nvidia_smi := stop_nvidia_smi s |}
             activated met eq_refl eq_refl), Hdue.
  unfold drive_fans; simpl.
  eexists; split; [reflexivity|]. simpl. repeat split.
  intros Hfail; rewrite Hfail. apply orb_true_r.
Qed.

Lemma handoff_clears_state_whatever_the_sink_says_witness :
  exists s',
    tick (resolve_activate_threshold default_params) [] example_levels
      dip_tick_release_fails idle_pending_state
    = Done s' [ToggleFanControl false]
    /\ manual_activated_dt s' = None
    /\ manual_met_idle_temp_dt s' = None
    /\ stop_nvidia_smi s'
       = (stop_nvidia_smi idle_pending_state
          || negb (toggle_ok dip_tick_release_fails))
    /\ (toggle_ok dip_tick_release_fails = false -> stop_nvidia_smi s' = true).
Proof.
  apply (handoff_clears_state_whatever_the_sink_says
           (resolve_activate_threshold default_params) [] example_levels
           dip_tick_release_fails idle_pending_state
           idle_reading idle_reading 0 1000000).
  - reflexivity.
  - reflexivity.
  - reflexivity.
  - reflexivity.
Defined.

(** ** Terminal hand-back *)

(** [check_dependencies] succeeds exactly when [which] finds both tools. *)
Lemma check_dependencies_installed (use_which : string -> bool) :
  check_dependencies use_which = true
  <-> use_which "ipmitool"%string = true /\ use_which "nvidia-smi"%string = true.
Proof.
  unfold check_dependencies. cbn [forallb]. rewrite andb_true_r.
  apply andb_true_iff.
Qed.

(** C8.  When [which] fails to find ipmitool or nvidia-smi the program
    exits with status 1 without sending anything.  When it finds both, the
    curve is built and the loop ends because shutdown completed, in whatever
    state, the program sends exactly one more command, the release of
    manual control, and exits with status 0 if that command succeeded and 1
    if it failed. *)
Theorem terminal_handback_and_exit_status :
  forall geomspace use_which params ticks final_ok,
    (use_which "ipmitool"%string = false
     \/ use_which "nvidia-smi"%string = false ->
     main geomspace use_which params ticks final_ok = Exit 1 [])
    /\ (use_which "ipmitool"%string = true ->
        use_which "nvidia-smi"%string = true ->
        forall d s loop_calls,
          curve_construction geomspace (resolve_activate_threshold params)
          = OK d ->
          run_loop (resolve_activate_threshold params)
            (parse_ignored_gpus (resolve_activate_threshold params))
            d ticks initial_state = Done s loop_calls ->
          exists code,
            main geomspace use_which params ticks final_ok
            = Exit code (loop_calls ++ [ToggleFanControl false])
            /\ (code = 0 <-> final_ok = true)
            /\ (code = 1 <-> final_ok = false)).
Proof.
  intros geomspace use_which params ticks final_ok. split.
  - intros Hmiss.
    assert (Hdeps : check_dependencies use_which = false).
    { destruct (check_dependencies use_which) eqn:E; [|reflexivity].
      apply check_dependencies_installed in E as [Hi Hn].
      destruct Hmiss as [H|H]; congruence. }
    unfold main. rewrite Hdeps. reflexivity.
  - intros Hi Hn d s loop_calls Hcurve Hloop.
    assert (Hdeps : check_dependencies use_which = true)
      by (apply check_dependencies_installed; split; assumption).
    exists (if final_ok then 0 else 1).
    split.
    + rewrite (main_runs_loop _ _ _ _ _ d Hdeps Hcurve), Hloop. reflexivity.
    + split; destruct final_ok; split; intros H; try reflexivity; discriminate.
Qed.

Lemma terminal_handback_and_exit_status_witness :
  main interp_samples ipmitool_missing default_params [hot_tick] true = Exit 1 []
  /\ exists code,
      main interp_samples all_installed default_params [mild_tick] false
      = Exit code ([] ++ [ToggleFanControl false])
      /\ (code = 0 <-> false = true)
      /\ (code = 1 <-> false = false).
Proof.
  split.
  - apply (terminal_handback_and_exit_status
             interp_samples ipmitool_missing default_params [hot_tick] true).
    left; reflexivity.
  - apply (proj2 (terminal_handback_and_exit_status
                    interp_samples all_installed default_params [mild_tick] false)
             eq_refl eq_refl
             example_levels
             {| previous := mild_reading;
                manual_activated_dt := None;
                manual_met_idle_temp_dt := None;
                stop_nvidia_smi := false |}
             []).
    + vm_compute; reflexivity.
    + vm_compute; reflexivity.
Defined.

(** * Further properties *)

(** ** Command lines of the hardware sink *)

Lemma hex_digit_round_trip (d : Z) :
  0 <= d < 16 -> hex_digit_value (hex_char d) = Some d.
Proof.
  intros Hd. rewrite <- (Z2Nat.id d) by lia.
  assert (Hn : (Z.to_nat d < 16)%nat) by lia.
  generalize dependent (Z.to_nat d). intros n Hn.
  do 16 (destruct n as [|n]; [reflexivity|]). lia.
Qed.

Lemma hex_upper_aux_value (fuel : nat) :
  forall n acc,
    0 <= n < 16 ^ Z.of_nat fuel ->
    hex_value 0 (hex_upper_aux fuel n acc) = hex_value n acc.
Proof.
  induction fuel as [|fuel IH]; intros n acc Hn.
  - simpl in *. replace n with 0 by lia. reflexivity.
  - rewrite Nat2Z.inj_succ, Z.pow_succ_r in Hn by lia.
    assert (Hmod : 0 <= n mod 16 < 16) by (apply Z.mod_pos_bound; lia).
    assert (Hdiv : n = 16 * (n / 16) + n mod 16) by (apply Z.div_mod; lia).
    cbn [hex_upper_aux]. destruct (n / 16 =? 0) eqn:E.
    + apply Z.eqb_eq in E. cbn [hex_value].
      rewrite hex_digit_round_trip by exact Hmod.
      f_equal. lia.
    + apply Z.eqb_neq in E.
      rewrite IH.
      * cbn [hex_value]. rewrite hex_digit_round_trip by exact Hmod.
        f_equal. lia.
      * split; [apply Z.div_pos; lia|].
        apply Z.div_lt_upper_bound; lia.
Qed.

Lemma hex_upper_value (n : Z) : 0 <= n -> hex_value 0 (hex_upper n) = Some n.
Proof.
  intros Hn. unfold hex_upper. rewrite hex_upper_aux_value; [reflexivity|].
  split; [exact Hn|].
  rewrite Nat2Z.inj_succ, Z2Nat.id by apply Z.log2_nonneg.
  destruct (Z.eq_dec n 0) as [->|Hpos]; [reflexivity|].
  apply Z.lt_le_trans with (2 ^ Z.succ (Z.log2 n)).
  - apply Z.log2_spec; lia.
  - apply Z.pow_le_mono_l. lia.
Qed.

Lemma hex_upper_aux_length (fuel : nat) :
  forall n acc,
    (String.length acc <= String.length (hex_upper_aux fuel n acc))%nat.
Proof.
  induction fuel as [|fuel IH]; intros n acc; [apply le_n|].
  cbn [hex_upper_aux]. destruct (n / 16 =? 0).
  - simpl. lia.
  - eapply Nat.le_trans; [|apply IH]. simpl. lia.
Qed.

Lemma hex_upper_wide (n : Z) : 256 <= n -> (3 <= String.length (hex_upper n))%nat.
Proof.
  intros Hn. unfold hex_upper.
  assert (Hlog : 8 <= Z.log2 n).
  { change 8 with (Z.log2 256). apply Z.log2_le_mono. exact Hn. }
  destruct (Z.to_nat (Z.log2 n)) as [|[|fuel]] eqn:E; try lia.
  assert (H1 : (n / 16 =? 0) = false).
  { apply Z.eqb_neq. intros H0.
    assert (16 <= n / 16) by (apply Z.div_le_lower_bound; lia). lia. }
  assert (H2 : (n / 16 / 16 =? 0) = false).
  { apply Z.eqb_neq. intros H0.
    assert (1 <= n / 16 / 16).
    { apply Z.div_le_lower_bound; [lia|].
      apply Z.div_le_lower_bound; lia. }
    lia. }
  cbn [hex_upper_aux]. rewrite H1, H2.
  destruct (n / 16 / 16 / 16 =? 0).
  - simpl. lia.
  - eapply Nat.le_trans; [|apply hex_upper_aux_length]. simpl. lia.
Qed.

Lemma format_02X_byte (speed : Z) :
  0 <= speed <= 255 ->
  format_02X speed
  = String (hex_char (speed / 16)) (String (hex_char (speed mod 16)) EmptyString).
Proof.
  intros Hs.
  assert (Hall :
    forallb (fun i =>
               String.eqb (format_02X (Z.of_nat i))
                 (String (hex_char (Z.of_nat i / 16))
                    (String (hex_char (Z.of_nat i mod 16)) EmptyString)))
            (seq 0 256) = true) by (vm_compute; reflexivity).
  rewrite forallb_forall in Hall.
  specialize (Hall (Z.to_nat speed)).
  rewrite Z2Nat.id in Hall by lia.
  apply String.eqb_eq, Hall, in_seq. lia.
Qed.

(** X1.  For a speed between 0 and 255 the last argument of the speed
    command is [0x] followed by exactly two upper-case hexadecimal digits,
    the high one first, and the numeral reads back as the speed. *)
Theorem speed_argument_encodes_byte :
  forall speed,
    0 <= speed <= 255 ->
    ipmi_argv (SetStaticFanSpeed speed)
    = ["ipmitool"; "raw"; "0x30"; "0x30"; "0x02"; "0xff";
       String "0" (String "x" (String (hex_char (speed / 16))
                                 (String (hex_char (speed mod 16)) "")))]%string
    /\ hex_value 0 (format_02X speed) = Some speed.
Proof.
  intros speed Hs. split.
  - unfold ipmi_argv. rewrite format_02X_byte by exact Hs. reflexivity.
  - unfold format_02X.
    replace (speed <? 0) with false by (symmetry; apply Z.ltb_ge; lia).
    destruct (String.length (hex_upper speed) <? 2)%nat.
    + cbn [hex_value hex_digit_value]. apply hex_upper_value; lia.
    + apply hex_upper_value; lia.
Qed.

Lemma speed_argument_encodes_byte_witness :
  ipmi_argv (SetStaticFanSpeed 100)
  = ["ipmitool"; "raw"; "0x30"; "0x30"; "0x02"; "0xff";
     String "0" (String "x" (String (hex_char (100 / 16))
                               (String (hex_char (100 mod 16)) "")))]%string
  /\ hex_value 0 (format_02X 100) = Some 100.
Proof.
  apply (speed_argument_encodes_byte 100). lia.
Defined.

(** X2.  Outside that range the argument is no byte literal: a speed above
    255 is written with three digits or more, a negative one with a minus
    sign in front of its digits.  Nothing in the program clamps the speed. *)
Theorem speed_argument_out_of_range :
  forall speed,
    speed < 0 \/ 255 < speed ->
    (255 < speed /\ (3 <= String.length (format_02X speed))%nat
     /\ hex_value 0 (format_02X speed) = Some speed)
    \/ (speed < 0
        /\ format_02X speed = String "-"%char (hex_upper (- speed))
        /\ hex_value 0 (format_02X speed) = None).
Proof.
  intros speed [Hneg|Hbig].
  - right. split; [exact Hneg|].
    unfold format_02X. apply Z.ltb_lt in Hneg. rewrite Hneg.
    split; reflexivity.
  - left. split; [exact Hbig|].
    pose proof (hex_upper_wide speed ltac:(lia)) as Hw.
    unfold format_02X.
    replace (speed <? 0) with false by (symmetry; apply Z.ltb_ge; lia).
    replace (String.length (hex_upper speed) <? 2)%nat with false
      by (symmetry; apply Nat.ltb_ge; lia).
    split; [exact Hw|apply hex_upper_value; lia].
Qed.

Lemma speed_argument_out_of_range_witness :
  (255 < 300 /\ (3 <= String.length (format_02X 300))%nat
   /\ hex_value 0 (format_02X 300) = Some 300)
  \/ (300 < 0
      /\ format_02X 300 = String "-"%char (hex_upper (- 300))
      /\ hex_value 0 (format_02X 300) = None).
Proof.
  apply (speed_argument_out_of_range 300). right; lia.
Defined.

(** ** Fan curve lookup *)

Lemma dict_get_in (d : levels) (k v : Q) :
  dict_get d k = Some v -> In v (map snd d).
Proof.
  induction d as [|[k0 v0] rest IH]; [discriminate|].
  simpl. destruct (Qeq_bool k0 k).
  - intros H; inversion H; left; reflexivity.
  - intros H; right; exact (IH H).
Qed.

Lemma lookup_speed_cases (d : levels) (t : Z) :
  (d = [] /\ lookup_speed d t = Raise IndexError)
  \/ (d <> [] /\ exists v, lookup_speed d t = OK v /\ In v (map snd d)).
Proof.
  destruct d as [|kv rest]; [left; split; reflexivity|].
  right. split; [discriminate|].
  unfold lookup_speed, first_breakpoint.
  destruct (find (fun kv0 => t <=? float_int (fst kv0)) (kv :: rest))
    as [[k v]|] eqn:E; cbn [option_map fst].
  - destruct (dict_get_of_found _ _ _ _ E) as (v' & Hv'). rewrite Hv'.
    exists v'. split; [reflexivity|]. eapply dict_get_in; exact Hv'.
  - destruct (last_item_nonempty (kv :: rest) ltac:(discriminate))
      as ([k v] & Hlast & Hin).
    rewrite Hlast. cbn [bind snd]. exists v. split; [reflexivity|].
    change v with (snd (k, v)). apply in_map. exact Hin.
Qed.

(** X3.  On a table of finite breakpoints (the tables [levels] holds) the
    lookup raises only when the table is empty, and then [IndexError]; on
    any other such table, whatever the order of its keys, it returns one of
    the table's speeds. *)
Theorem lookup_speed_raises_iff_empty :
  forall d temperature,
    (d = [] /\ lookup_speed d temperature = Raise IndexError)
    \/ (d <> [] /\ exists v, lookup_speed d temperature = OK v
                             /\ In v (map snd d)).
Proof.
  exact lookup_speed_cases.
Qed.

Lemma speeds_follow_keys (d : levels) (k k' v v' : Q) :
  increasing (map fst d) ->
  speeds_nondecreasing d ->
  In (k, v) d -> In (k', v') d -> (k <= k')%Q -> (v <= v')%Q.
Proof.
  unfold speeds_nondecreasing.
  induction d as [|[k0 v0] rest IH]; intros Hinc Hsp Hin Hin' Hle; [destruct Hin|].
  simpl in Hinc, Hsp. apply increasing_cons_inv in Hinc as [Hinc Hlt].
  inversion Hsp as [|? ? Hsp' Hv0]; subst.
  rewrite Forall_forall in Hlt, Hv0.
  destruct Hin as [H|H], Hin' as [H'|H'].
  - inversion H; inversion H'; subst. apply Qle_refl.
  - inversion H; subst. apply Hv0.
    change v' with (snd (k', v')). apply in_map. exact H'.
  - inversion H'; subst. apply key_in_map_fst in H. apply Hlt in H.
    exfalso. apply (Qlt_irrefl k'). eapply Qlt_le_trans; eassumption.
  - exact (IH Hinc Hsp' H H' Hle).
Qed.

(** X4.  On a table whose breakpoints strictly increase from a non-negative
    first one and whose speeds never decrease, a higher temperature never
    gets a lower speed. *)
Theorem lookup_speed_monotone :
  forall d t1 t2 v1 v2,
    increasing (map fst d) ->
    Forall (fun kv => (0 <= fst kv)%Q) d ->
    speeds_nondecreasing d ->
    t1 <= t2 ->
    lookup_speed d t1 = OK v1 ->
    lookup_speed d t2 = OK v2 ->
    (v1 <= v2)%Q.
Proof.
  intros d t1 t2 v1 v2 Hinc Hpos Hsp Ht H1 H2.
  assert (Hne : d <> []) by (intros ->; discriminate).
  destruct (lookup_speed_sorted d t1 Hne Hinc Hpos) as (w1 & Hw1 & Hc1).
  destruct (lookup_speed_sorted d t2 Hne Hinc Hpos) as (w2 & Hw2 & Hc2).
  rewrite H1 in Hw1. rewrite H2 in Hw2.
  inversion Hw1; inversion Hw2; subst w1 w2. clear Hw1 Hw2.
  assert (Ht' : (inject_Z t1 <= inject_Z t2)%Q) by (rewrite <- Zle_Qle; exact Ht).
  destruct Hc1 as [(k1 & Hin1 & Hle1 & Hmin1)|(Habove1 & k1 & Hlast1 & Hmax1)];
    destruct Hc2 as [(k2 & Hin2 & Hle2 & Hmin2)|(Habove2 & k2 & Hlast2 & Hmax2)].
  - apply (speeds_follow_keys d k1 k2); try assumption.
    apply (Hmin1 _ _ Hin2). eapply Qle_trans; eassumption.
  - pose proof (last_item_in _ _ Hlast2) as Hin2.
    apply (speeds_follow_keys d k1 k2); try assumption.
    exact (Hmax2 _ _ Hin1).
  - exfalso. apply (Qlt_irrefl k2).
    eapply Qlt_le_trans; [exact (Habove1 _ _ Hin2)|].
    eapply Qle_trans; eassumption.
  - rewrite Hlast1 in Hlast2. inversion Hlast2; subst. apply Qle_refl.
Qed.

Lemma lookup_speed_monotone_witness : (inject_Z 60 <= inject_Z 100)%Q.
Proof.
  apply (lookup_speed_monotone
           [(inject_Z 55, inject_Z 50); (inject_Z 60, inject_Z 60);
            (inject_Z 80, inject_Z 100)]
           58 90 (inject_Z 60) (inject_Z 100)).
  - repeat constructor.
  - repeat constructor; discriminate.
  - repeat constructor; discriminate.
  - lia.
  - reflexivity.
  - reflexivity.
Defined.

Lemma float_int_between (v : Q) (lo hi : Z) :
  (inject_Z lo <= v)%Q -> (v <= inject_Z hi)%Q -> lo <= float_int v <= hi.
Proof.
  destruct v as [n d]. unfold Qle, float_int; simpl. intros Hlo Hhi.
  pose proof (Z.quot_rem' n (Z.pos d)) as Hq.
  pose proof (Z.rem_bound_abs n (Z.pos d) ltac:(lia)) as Hr.
  split; nia.
Qed.

(** X5.  When the lookup returns a speed and every speed of the table
    lies between two integers, the speed command carries [int(speed)] and
    that integer lies between the two bounds. *)
Theorem speed_command_within_table_bounds :
  forall sink_ok d temperature lo hi v,
    lookup_speed d temperature = OK v ->
    Forall (fun kv => (inject_Z lo <= snd kv)%Q /\ (snd kv <= inject_Z hi)%Q) d ->
    ipmi_set_static_fan_speed sink_ok d temperature
    = OK (SetStaticFanSpeed (float_int v), sink_ok)
    /\ lo <= float_int v <= hi.
Proof.
  intros ok d t lo hi v Hv Hall.
  split; [unfold ipmi_set_static_fan_speed; rewrite Hv; reflexivity|].
  destruct (lookup_speed_cases d t) as [[_ Hraise]|(_ & v' & Hv' & Hin)];
    [congruence|].
  assert (v' = v) by congruence. subst v'.
  apply in_map_iff in Hin as ([k v'] & Heq & Hin). simpl in Heq; subst v'.
  rewrite Forall_forall in Hall. destruct (Hall _ Hin) as [Hlo Hhi].
  apply float_int_between; assumption.
Qed.

Lemma speed_command_within_table_bounds_witness :
  ipmi_set_static_fan_speed true
    [(inject_Z 55, inject_Z 50); (inject_Z 80, 151 # 2)] 70
  = OK (SetStaticFanSpeed (float_int (151 # 2)), true)
  /\ 50 <= float_int (151 # 2) <= 100.
Proof.
  apply (speed_command_within_table_bounds true
           [(inject_Z 55, inject_Z 50); (inject_Z 80, 151 # 2)] 70 50 100
           (151 # 2)).
  - reflexivity.
  - repeat constructor; discriminate.
Defined.

Lemma increasingb_sound (samples : list Q) :
  increasingb samples = true -> increasing samples.
Proof.
  intros H; apply Sorted_StronglySorted.
  - intros x y z; apply Qlt_trans.
  - induction samples as [|a rest IH]; [constructor|].
    destruct rest as [|b rest'].
    + repeat constructor.
    + simpl in H. apply andb_true_iff in H as [Hab Hrest].
      constructor; [apply IH; exact Hrest|].
      constructor. apply Qnot_le_lt. intros Hle.
      apply Qle_bool_iff in Hle. rewrite Hle in Hab. discriminate.
Qed.

Lemma lookup_speed_at_thresholds_witness :
  exists d,
    build_levels example_temp_levels example_fan_levels = OK d
    /\ lookup_speed d 55 = OK (inject_Z 50)
    /\ lookup_speed d 80 = OK (inject_Z 100).
Proof.
  apply (lookup_speed_at_thresholds example_temp_levels example_fan_levels
           55 80 (inject_Z 50) (inject_Z 100)).
  - vm_compute; reflexivity.
  - vm_compute; reflexivity.
  - apply increasingb_sound; vm_compute; reflexivity.
  - lia.
  - vm_compute; reflexivity.
  - vm_compute; reflexivity.
  - vm_compute; reflexivity.
  - vm_compute; reflexivity.
Defined.

(** ** Fan curve: the generated arrays *)








(** ** Decision loop: the commands it sends *)

(** All the ways one iteration can go, one goal each; the tests that
    select the way are kept as equations. *)
Ltac tick_cases p ignored_gpus d inp s :=
  unfold tick, transition, drive_fans, ipmi_set_static_fan_speed, under_manual;
  destruct (aggregate_tick ignored_gpus (batch inp) (previous s))
    as [[?highest ?stored]|?e] eqn:?Haggregate;
  [|cbn; auto];
  cbn [manual_activated_dt manual_met_idle_temp_dt stop_nvidia_smi previous];
  destruct (manual_activated_dt s) as [?activated|] eqn:?Hactivated;
  destruct (manual_met_idle_temp_dt s) as [?met|] eqn:?Hmet;
  cbn [is_none negb andb];
  repeat (match goal with
          | |- context [if ?c then _ else _] =>
              match type of c with
              | bool => destruct c eqn:?Htest
              end
          end;
          cbn [manual_activated_dt manual_met_idle_temp_dt stop_nvidia_smi
               previous is_none negb andb bind]);
  cbn [manual_activated_dt manual_met_idle_temp_dt stop_nvidia_smi previous
       is_none negb andb bind];
  repeat match goal with
         | |- context [lookup_speed ?t ?x] =>
             destruct (lookup_speed t x) eqn:?Hlookup
         end;
  cbn.

Lemma tick_protocol (p : runtime_params) (ignored_gpus : list string) (d : levels)
  (inp : tick_input) (s : loop_state) :
  speeds_follow_takeover (under_manual s) (calls_of (tick p ignored_gpus d inp s))
  = true
  /\ forall s' calls,
      tick p ignored_gpus d inp s = Done s' calls ->
      mode_after (under_manual s) calls = under_manual s'.
Proof.
  tick_cases p ignored_gpus d inp s;
    (split; [reflexivity|]); intros s' calls H;
    try discriminate; inversion H; subst; reflexivity.
Qed.

Lemma mode_after_app (manual : bool) (calls calls' : list ipmi_call) :
  mode_after manual (calls ++ calls') = mode_after (mode_after manual calls) calls'.
Proof.
  revert manual; induction calls as [|[enable|speed] calls IH]; intros manual;
    simpl; auto.
Qed.

Lemma speeds_follow_takeover_app (manual : bool) (calls calls' : list ipmi_call) :
  speeds_follow_takeover manual (calls ++ calls')
  = speeds_follow_takeover manual calls
    && speeds_follow_takeover (mode_after manual calls) calls'.
Proof.
  revert manual; induction calls as [|[enable|speed] calls IH]; intros manual;
    simpl; auto.
  rewrite IH. apply andb_assoc.
Qed.

Lemma run_loop_protocol (p : runtime_params) (ignored_gpus : list string)
  (d : levels) (ticks : list tick_input) :
  forall s,
    speeds_follow_takeover (under_manual s)
      (calls_of (run_loop p ignored_gpus d ticks s)) = true
    /\ mode_after (under_manual s) (calls_of (run_loop p ignored_gpus d ticks s))
       = match run_loop p ignored_gpus d ticks s with
         | Done s' _ => under_manual s'
         | Crashed _ calls => mode_after (under_manual s) calls
         end.
Proof.
  induction ticks as [|inp rest IH]; intros s; [split; reflexivity|].
  destruct (tick_protocol p ignored_gpus d inp s) as [Hsp Hmode].
  cbn [run_loop].
  destruct (tick p ignored_gpus d inp s) as [s1 calls1|e calls1] eqn:Et.
  - specialize (Hmode s1 calls1 eq_refl). cbn [calls_of] in Hsp.
    destruct (IH s1) as [Hsp1 Hmode1].
    destruct (run_loop p ignored_gpus d rest s1) as [s2 calls2|e calls2];
      cbn [calls_of] in *;
      rewrite speeds_follow_takeover_app, mode_after_app, Hsp, Hmode, Hsp1;
      split; try reflexivity; exact Hmode1.
  - cbn [calls_of] in *. split; [exact Hsp|reflexivity].
Qed.

(** X6.  Whatever the telemetry, the clock and the sink's answers, and
    whether the loop ends normally or with an exception, every speed command
    it sent follows a take-over command with no release in between: the
    loop never sets a fan speed while automatic control is the mode it last
    requested.  When the loop ends normally, the mode last requested is
    manual exactly when the loop holds [manual_activated_dt]. *)
Theorem speed_commands_follow_takeover :
  forall p ignored_gpus d ticks,
    speeds_follow_takeover false
      (calls_of (run_loop p ignored_gpus d ticks initial_state)) = true
    /\ forall s calls,
        run_loop p ignored_gpus d ticks initial_state = Done s calls ->
        mode_after false calls = under_manual s.
Proof.
  intros p ig d ticks.
  destruct (run_loop_protocol p ig d ticks initial_state) as [Hsp Hmode].
  split; [exact Hsp|].
  intros s calls H. rewrite H in Hmode. exact Hmode.
Qed.

(** X7.  An iteration sends the take-over command only from automatic
    control and only when the aggregate temperature has reached the
    activation threshold; it sends the release command only when the idle
    timestamp is set, the hand-off interval has elapsed since it and the
    utilization is at or below the idle threshold. *)
Theorem toggle_commands_are_justified :
  forall p ignored_gpus d inp s,
    (In (ToggleFanControl true) (calls_of (tick p ignored_gpus d inp s)) ->
     manual_activated_dt s = None
     /\ exists highest stored,
         aggregate_tick ignored_gpus (batch inp) (previous s) = OK (highest, stored)
         /\ gpu_activate_fan_control_threshold p <= temp highest)
    /\ (In (ToggleFanControl false) (calls_of (tick p ignored_gpus d inp s)) ->
        exists met highest stored,
          manual_met_idle_temp_dt s = Some met
          /\ aggregate_tick ignored_gpus (batch inp) (previous s)
             = OK (highest, stored)
          /\ handoff_due p (now inp) met (util highest) = true).
Proof.
  intros p ig d inp s.
  tick_cases p ig d inp s;
    (split; intros Hin; cbn in Hin;
     repeat match type of Hin with
            | _ \/ _ => destruct Hin as [Hin|Hin]
            end;
     try discriminate Hin; try contradiction);
    try (split; [reflexivity|]);
    repeat eexists; try eassumption; try reflexivity;
    try (apply Z.geb_le; assumption).
Qed.

(** X8.  What the code of an iteration does to the stop request: when the
    iteration completes, the request it leaves is the one it found, raised
    in addition when a toggle command was sent and failed or a speed
    command was sent and failed.  The iteration raises it for nothing else
    and never lowers it.  (The handler of SIGINT raises the request too; it
    runs outside the iteration's code.) *)
Theorem stop_request_iff_sink_failure :
  forall p ignored_gpus d inp s s' calls,
    tick p ignored_gpus d inp s = Done s' calls ->
    stop_nvidia_smi s'
    = (stop_nvidia_smi s
       || (existsb is_toggle calls && negb (toggle_ok inp))
       || (existsb is_speed calls && negb (speed_ok inp))).
Proof.
  intros p ig d inp s s' calls.
  tick_cases p ig d inp s; intros H; try discriminate;
    inversion H; subst; cbn;
    repeat rewrite orb_false_r; reflexivity.
Qed.

Lemma stop_request_iff_sink_failure_witness :
  stop_nvidia_smi
    {| previous := idle_reading;
       manual_activated_dt := None;
       manual_met_idle_temp_dt := None;
       stop_nvidia_smi := true |}
  = (stop_nvidia_smi idle_pending_state
     || (existsb is_toggle [ToggleFanControl false]
         && negb (toggle_ok dip_tick_release_fails))
     || (existsb is_speed [ToggleFanControl false]
         && negb (speed_ok dip_tick_release_fails))).
Proof.
  apply (stop_request_iff_sink_failure
           (resolve_activate_threshold default_params) [] example_levels
           dip_tick_release_fails idle_pending_state).
  vm_compute; reflexivity.
Defined.

(** X9.  The loop never reads the stop request: with the request raised an
    iteration takes the same transition, sends the same commands and ends
    the same way as without it.  A sink failure therefore does not stop the
    loop from taking or driving manual control in later iterations. *)
Theorem tick_ignores_stop_request :
  forall p ignored_gpus d inp s,
    tick p ignored_gpus d inp (with_stop_request s)
    = match tick p ignored_gpus d inp s with
      | Done s' calls => Done (with_stop_request s') calls
      | Crashed e calls => Crashed e calls
      end.
Proof.
  intros p ig d inp s.
  unfold tick, with_stop_request.
  cbn [previous manual_activated_dt manual_met_idle_temp_dt stop_nvidia_smi].
  destruct (aggregate_tick ig (batch inp) (previous s)) as [[h stored]|e];
    [|reflexivity].
  unfold transition, drive_fans, ipmi_set_static_fan_speed.
  cbn [previous manual_activated_dt manual_met_idle_temp_dt stop_nvidia_smi].
  destruct (manual_activated_dt s) as [a|];
    destruct (manual_met_idle_temp_dt s) as [m|];
    cbn [is_none negb andb];
    repeat (match goal with
            | |- context [if ?c then _ else _] =>
                match type of c with
                | bool => destruct c
                end
            end;
            cbn [manual_activated_dt manual_met_idle_temp_dt stop_nvidia_smi
                 previous is_none negb andb bind orb]);
    cbn [manual_activated_dt manual_met_idle_temp_dt stop_nvidia_smi
         previous is_none negb andb bind orb];
    repeat match goal with
           | |- context [lookup_speed ?t ?x] => destruct (lookup_speed t x)
           end;
    reflexivity.
Qed.

(** X10.  Under automatic control, with no idle timestamp, an iteration
    whose aggregate temperature is below the activation threshold sends no
    command and changes nothing but the stored reading. *)
Theorem automatic_below_threshold_sends_nothing :
  forall p ignored_gpus d inp s highest stored,
    manual_activated_dt s = None ->
    manual_met_idle_temp_dt s = None ->
    aggregate_tick ignored_gpus (batch inp) (previous s) = OK (highest, stored) ->
    temp highest < gpu_activate_fan_control_threshold p ->
    tick p ignored_gpus d inp s
    = Done {| previous := stored;
              manual_activated_dt := None;
              manual_met_idle_temp_dt := None;
              stop_nvidia_smi := stop_nvidia_smi s |} [].
Proof.
  intros p ig d inp s h stored Ha Hm Hagg Hlt.
  unfold tick. rewrite Hagg. unfold transition.
  cbn [previous manual_activated_dt manual_met_idle_temp_dt stop_nvidia_smi].
  rewrite Ha, Hm. cbn [is_none negb andb].
  replace (temp h >=? gpu_activate_fan_control_threshold p) with false
    by (symmetry; rewrite Z.geb_leb; apply Z.leb_gt; exact Hlt).
  reflexivity.
Qed.

Lemma automatic_below_threshold_sends_nothing_witness :
  tick (resolve_activate_threshold default_params) [] example_levels
    mild_tick initial_state
  = Done {| previous := mild_reading;
            manual_activated_dt := None;
            manual_met_idle_temp_dt := None;
            stop_nvidia_smi := stop_nvidia_smi initial_state |} [].
Proof.
  apply (automatic_below_threshold_sends_nothing
           (resolve_activate_threshold default_params) [] example_levels
           mild_tick initial_state mild_reading mild_reading).
  - reflexivity.
  - reflexivity.
  - reflexivity.
  - vm_compute; reflexivity.
Defined.



(** X12.  In every state the loop can reach, the idle timestamp is set only
    while [manual_activated_dt] is set: of the four combinations of the two
    timestamps the loop knows three. *)
Theorem idle_timestamp_only_under_manual_control :
  forall p ignored_gpus d s met,
    reachable p ignored_gpus d s ->
    manual_met_idle_temp_dt s = Some met ->
    exists activated, manual_activated_dt s = Some activated.
Proof.
  intros p ig d s met Hreach Hmet.
  pose proof (reachable_idle_implies_manual _ _ _ _ Hreach) as Hinv.
  destruct (manual_activated_dt s) as [a|] eqn:Ha; [exists a; reflexivity|].
  rewrite (Hinv Ha) in Hmet. discriminate.
Qed.

Lemma idle_timestamp_only_under_manual_control_witness :
  exists activated, manual_activated_dt idle_pending_state = Some activated.
Proof.
  apply (idle_timestamp_only_under_manual_control
           (resolve_activate_threshold default_params) [] example_levels
           idle_pending_state 1000000).
  - exact idle_pending_state_reachable.
  - reflexivity.
Defined.

(** ** Exceptions and the terminal hand-back *)

Lemma run_loop_app (p : runtime_params) (ignored_gpus : list string) (d : levels)
  (ticks later : list tick_input) :
  forall s,
    run_loop p ignored_gpus d (ticks ++ later) s
    = match run_loop p ignored_gpus d ticks s with
      | Crashed e calls => Crashed e calls
      | Done s' calls =>
          match run_loop p ignored_gpus d later s' with
          | Crashed e calls' => Crashed e (calls ++ calls')
          | Done s'' calls' => Done s'' (calls ++ calls')
          end
      end.
Proof.
  induction ticks as [|inp rest IH]; intros s.
  - cbn. destruct (run_loop p ignored_gpus d later s); reflexivity.
  - cbn [app run_loop].
    destruct (tick p ignored_gpus d inp s) as [s1 calls1|e calls1]; [|reflexivity].
    rewrite IH.
    destruct (run_loop p ignored_gpus d rest s1) as [s2 calls2|e calls2];
      [|reflexivity].
    destruct (run_loop p ignored_gpus d later s2); rewrite app_assoc; reflexivity.
Qed.

Lemma tick_crash_under_manual (p : runtime_params) (ignored_gpus : list string)
  (d : levels) (inp : tick_input) (s : loop_state) (e : py_exception)
  (calls : list ipmi_call) :
  manual_activated_dt s <> None ->
  tick p ignored_gpus d inp s = Crashed e calls ->
  mode_after true calls = true.
Proof.
  intros Hmanual.
  tick_cases p ignored_gpus d inp s; intros H; try discriminate;
    try congruence; inversion H; subst; reflexivity.
Qed.

(** X13.  When an iteration raises while the loop holds manual control, the
    main thread ends with that exception and sends nothing more: the
    terminal hand-back is skipped, the later iterations do not run, and the
    last mode requested from the BMC is manual control. *)
Theorem exception_leaves_manual_control_engaged :
  forall geomspace use_which params ticks failing later final_ok d s calls e calls',
    check_dependencies use_which = true ->
    curve_construction geomspace (resolve_activate_threshold params) = OK d ->
    run_loop (resolve_activate_threshold params)
      (parse_ignored_gpus (resolve_activate_threshold params))
      d ticks initial_state = Done s calls ->
    manual_activated_dt s <> None ->
    tick (resolve_activate_threshold params)
      (parse_ignored_gpus (resolve_activate_threshold params))
      d failing s = Crashed e calls' ->
    main geomspace use_which params (ticks ++ failing :: later) final_ok
    = Traceback e (calls ++ calls')
    /\ mode_after false (calls ++ calls') = true.
Proof.
  intros geomspace use_which params ticks failing later final_ok d s calls e calls'
    Hdeps Hcurve Hloop Hmanual Hcrash.
  split.
  - rewrite (main_runs_loop _ _ _ _ _ d Hdeps Hcurve).
    rewrite run_loop_app, Hloop. cbn [run_loop]. rewrite Hcrash. reflexivity.
  - destruct (run_loop_protocol (resolve_activate_threshold params)
                (parse_ignored_gpus (resolve_activate_threshold params))
                d ticks initial_state) as [_ Hmode].
    rewrite Hloop in Hmode. cbn [calls_of] in Hmode.
    change (under_manual initial_state) with false in Hmode.
    rewrite mode_after_app, Hmode.
    unfold under_manual.
    destruct (manual_activated_dt s) as [a|] eqn:Ha; [|congruence].
    cbn [is_none negb].
    eapply tick_crash_under_manual; [|exact Hcrash]. congruence.
Qed.

Lemma exception_leaves_manual_control_engaged_witness :
  main interp_samples all_installed default_params
    ([hot_tick] ++ garbled_tick :: [quiet_tick]) true
  = Traceback ValueError ([ToggleFanControl true; SetStaticFanSpeed 100] ++ [])
  /\ mode_after false ([ToggleFanControl true; SetStaticFanSpeed 100] ++ []) = true.
Proof.
  apply (exception_leaves_manual_control_engaged
           interp_samples all_installed default_params
           [hot_tick] garbled_tick [quiet_tick] true example_levels
           {| previous := hot_reading;
              manual_activated_dt := Some 0;
              manual_met_idle_temp_dt := None;
              stop_nvidia_smi := false |}
           [ToggleFanControl true; SetStaticFanSpeed 100] ValueError []).
  - reflexivity.
  - vm_compute; reflexivity.
  - vm_compute; reflexivity.
  - discriminate.
  - vm_compute; reflexivity.
Defined.

(** X14.  A zero activation threshold or maximum temperature, or a zero
    minimum fan speed beside a positive activation threshold and maximum,
    makes [numpy.geomspace] raise [ValueError]: the main thread ends with
    that exception before the first iteration and without sending any
    command. *)
Theorem zero_threshold_ends_before_the_loop :
  forall geomspace use_which params ticks final_ok,
    numpy_geomspace geomspace ->
    check_dependencies use_which = true ->
    gpu_activate_fan_control_threshold (resolve_activate_threshold params) = 0
    \/ gpu_max_temp_threshold (resolve_activate_threshold params) = 0
    \/ (positive_threshold
          (gpu_activate_fan_control_threshold (resolve_activate_threshold params))
        /\ positive_threshold
             (gpu_max_temp_threshold (resolve_activate_threshold params))
        /\ gpu_min_fan_speed_target (resolve_activate_threshold params) = 0) ->
    main geomspace use_which params ticks final_ok = Traceback ValueError [].
Proof.
  intros geomspace use_which params ticks final_ok Hnp Hdeps Hzero.
  assert (Hcurve : curve_construction geomspace (resolve_activate_threshold params)
                   = Raise ValueError).
  { destruct Hzero as [H|[H|(Ha & Hm & Hf)]].
    - apply curve_construction_zero_endpoint; [exact Hnp|left; exact H].
    - apply curve_construction_zero_endpoint; [exact Hnp|right; exact H].
    - destruct Hnp as [Hz Hpos].
      apply positive_threshold_Q in Ha as [Ha1 Ha2].
      apply positive_threshold_Q in Hm as [Hm1 Hm2].
      destruct (Hpos _ _ num_levels Ha1 Ha2 Hm1 Hm2) as (tl & Etl & _).
      unfold curve_construction. rewrite Etl. cbn [bind].
      rewrite Hz; [reflexivity|]. left. rewrite Hf. reflexivity. }
  unfold main. rewrite Hdeps, Hcurve. reflexivity.
Qed.

Lemma zero_threshold_ends_before_the_loop_witness :
  main interp_samples all_installed
    {| gpu_max_temp_threshold := 80;
       gpu_min_fan_speed_target := 0;
       gpu_idle_temp_target := 45;
       gpu_auto_handoff_interval := 10;
       gpu_idle_condition_threshold := 0;
       gpu_activate_fan_control_threshold := -1;
       ignore_gpus := None |}
    [hot_tick] true
  = Traceback ValueError [].
Proof.
  apply (zero_threshold_ends_before_the_loop interp_samples all_installed).
  - exact interp_samples_numpy.
  - reflexivity.
  - right; right. repeat split; try reflexivity; discriminate.
Defined.

(** ** The table *)

(** X15.  When the 512 breakpoints strictly increase, the table holds
    exactly the pairs (breakpoint, speed) of equal index, in index order:
    no entry is merged or overwritten. *)
Theorem table_pairs_the_arrays_index_for_index :
  forall temp_levels fan_levels,
    increasing temp_levels ->
    List.length temp_levels = num_levels ->
    List.length fan_levels = num_levels ->
    build_levels temp_levels fan_levels = OK (combine temp_levels fan_levels)
    /\ List.length (combine temp_levels fan_levels) = num_levels
    /\ forall i k v,
        nth_error temp_levels i = Some k ->
        nth_error fan_levels i = Some v ->
        nth_error (combine temp_levels fan_levels) i = Some (k, v).
Proof.
  intros tl fl Hinc Ht Hf.
  split; [apply build_levels_increasing; assumption|].
  split; [rewrite length_combine, Ht, Hf; apply Nat.min_id|].
  clear. revert fl. induction tl as [|a tl IH]; intros [|b fl] [|i] k v Hk Hv;
    try discriminate; simpl in *.
  - inversion Hk; inversion Hv; reflexivity.
  - apply IH; assumption.
Qed.

Lemma table_pairs_the_arrays_index_for_index_witness :
  build_levels example_temp_levels example_fan_levels
  = OK (combine example_temp_levels example_fan_levels)
  /\ List.length (combine example_temp_levels example_fan_levels) = num_levels
  /\ forall i k v,
      nth_error example_temp_levels i = Some k ->
      nth_error example_fan_levels i = Some v ->
      nth_error (combine example_temp_levels example_fan_levels) i = Some (k, v).
Proof.
  apply (table_pairs_the_arrays_index_for_index
           example_temp_levels example_fan_levels).
  - apply increasingb_sound; vm_compute; reflexivity.
  - vm_compute; reflexivity.
  - vm_compute; reflexivity.
Defined.

Lemma Qeq_bool_congr (c a b : Q) : (a == b)%Q -> Qeq_bool c a = Qeq_bool c b.
Proof.
  intros Hab.
  destruct (Qeq_bool c a) eqn:Ea, (Qeq_bool c b) eqn:Eb; try reflexivity.
  - apply Qeq_bool_iff in Ea. rewrite Hab in Ea.
    apply Qeq_bool_iff in Ea. congruence.
  - apply Qeq_bool_iff in Eb. rewrite <- Hab in Eb.
    apply Qeq_bool_iff in Eb. congruence.
Qed.

Lemma dict_get_set_eq (d : levels) (key v k : Q) :
  (key == k)%Q -> dict_get (dict_set d key v) k = Some v.
Proof.
  intros Heq. induction d as [|[k0 v0] rest IH]; simpl.
  - apply Qeq_bool_iff in Heq. rewrite Heq. reflexivity.
  - destruct (Qeq_bool k0 key) eqn:E; simpl.
    + rewrite <- (Qeq_bool_congr k0 key k Heq), E. reflexivity.
    + rewrite <- (Qeq_bool_congr k0 key k Heq), E. exact IH.
Qed.

Lemma dict_get_set_neq (d : levels) (key v k : Q) :
  ~ (key == k)%Q -> dict_get (dict_set d key v) k = dict_get d k.
Proof.
  intros Hneq.
  assert (Hkey : Qeq_bool key k = false).
  { destruct (Qeq_bool key k) eqn:E; [|reflexivity].
    apply Qeq_bool_iff in E. contradiction. }
  induction d as [|[k0 v0] rest IH]; simpl.
  - rewrite Hkey. reflexivity.
  - destruct (Qeq_bool k0 key) eqn:E; simpl.
    + apply Qeq_bool_iff in E.
      destruct (Qeq_bool k0 k) eqn:E'; [|reflexivity].
      apply Qeq_bool_iff in E'. exfalso. apply Hneq.
      rewrite <- E. exact E'.
    + destruct (Qeq_bool k0 k); [reflexivity|exact IH].
Qed.

Lemma fill_levels_last_assignment (temp_levels fan_levels : list Q) :
  forall fuel i acc,
    (i + fuel <= List.length temp_levels)%nat ->
    (i + fuel <= List.length fan_levels)%nat ->
    last_assignment_wins temp_levels fan_levels i acc ->
    exists d,
      fill_levels fuel i temp_levels fan_levels acc = OK d
      /\ last_assignment_wins temp_levels fan_levels (i + fuel) d.
Proof.
  induction fuel as [|fuel IH]; intros i acc Ht Hf Hinv.
  - exists acc. rewrite Nat.add_0_r. split; [reflexivity|exact Hinv].
  - step_fill_levels key speed Ek Es.
    replace (i + S fuel)%nat with (S i + fuel)%nat by lia.
    apply IH; try lia.
    intros a k Ha Hk.
    destruct (Qeq_bool key k) eqn:E.
    + apply Qeq_bool_iff in E.
      exists i, key, speed. repeat split; try assumption; try lia.
      apply dict_get_set_eq; exact E.
    + assert (Hneq : ~ (key == k)%Q).
      { intros H. apply Qeq_bool_iff in H. congruence. }
      assert (Hai : (a < i)%nat).
      { destruct (Nat.eq_dec a i) as [->|]; [|lia].
        rewrite Ek in Hk. inversion Hk; subst.
        exfalso. apply Hneq. reflexivity. }
      destruct (Hinv a k Hai Hk) as (j & kj & v & Hj & Hkj & Hq & Hv & Hget & Hlater).
      exists j, kj, v. repeat split; try assumption; try lia.
      * rewrite dict_get_set_neq by exact Hneq. exact Hget.
      * intros j' kj' Hj' Hkj'.
        destruct (Nat.eq_dec j' i) as [->|Hne].
        -- rewrite Ek in Hkj'. inversion Hkj'; subst. exact Hneq.
        -- apply (Hlater j' kj'); [lia|exact Hkj'].
Qed.

(** X16.  Whatever the order of the 512 breakpoints, the table is built and
    maps every breakpoint to the speed of the last index that holds an equal
    breakpoint: a repeated breakpoint is overwritten, the last assignment
    wins. *)
Theorem table_last_assignment_wins :
  forall temp_levels fan_levels,
    List.length temp_levels = num_levels ->
    List.length fan_levels = num_levels ->
    exists d,
      build_levels temp_levels fan_levels = OK d
      /\ last_assignment_wins temp_levels fan_levels num_levels d.
Proof.
  intros tl fl Ht Hf.
  apply (fill_levels_last_assignment tl fl num_levels 0 []); try lia.
  intros a k Ha. lia.
Qed.

Lemma table_last_assignment_wins_witness :
  exists d,
    build_levels example_temp_levels example_fan_levels = OK d
    /\ last_assignment_wins example_temp_levels example_fan_levels num_levels d.
Proof.
  apply (table_last_assignment_wins example_temp_levels example_fan_levels).
  - vm_compute; reflexivity.
  - vm_compute; reflexivity.
Defined.

(** ** The aggregate of a drained batch *)

Lemma bind_ok_inv {A B : Type} (r : result A) (k : A -> result B) (b : B) :
  bind r k = OK b -> exists a, r = OK a /\ k a = OK b.
Proof.
  destruct r as [a|e]; simpl; intros H; [|discriminate].
  exists a; split; [reflexivity|exact H].
Qed.

Lemma read_record_temperature (clean_data : list string) (r : reading) :
  read_record clean_data = OK r -> temperature_field clean_data = OK (temp r).
Proof.
  unfold read_record. intros H.
  apply bind_ok_inv in H as (c0 & _ & H).
  apply bind_ok_inv in H as (i & _ & H).
  apply bind_ok_inv in H as (n & _ & H).
  apply bind_ok_inv in H as (t & Ht & H).
  apply bind_ok_inv in H as (c3 & _ & H).
  apply bind_ok_inv in H as (u & _ & H).
  inversion H; subst. exact Ht.
Qed.

Lemma drain_line_inv (ignored_gpus : list string) (line : string)
  (st st' : reading * reading) :
  is_ignored ignored_gpus line = false ->
  drain_line ignored_gpus line st = OK st' ->
  exists t,
    temperature_field (clean_fields line) = OK t
    /\ ((temp (fst st) < t /\ read_record (clean_fields line) = OK (fst st')
         /\ temp (fst st') = t)
        \/ (t <= temp (fst st) /\ fst st' = fst st)).
Proof.
  intros Hig. unfold drain_line. rewrite Hig.
  destruct (temperature_field (clean_fields line)) as [t|e] eqn:Et;
    [|discriminate].
  cbn [bind]. intros H. exists t. split; [reflexivity|].
  destruct (t >? temp (fst st)) eqn:E.
  - destruct (read_record (clean_fields line)) as [r|e] eqn:Er; [|discriminate].
    cbn [bind] in H. inversion H; subst st'. cbn [fst].
    left. split; [apply Z.gtb_lt; exact E|]. split; [reflexivity|].
    apply read_record_temperature in Er. rewrite Et in Er.
    inversion Er; reflexivity.
  - cbn [bind] in H. inversion H; subst st'. cbn [fst].
    right. split; [|reflexivity].
    rewrite Z.gtb_ltb in E. apply Z.ltb_ge. exact E.
Qed.

Lemma drain_queue_hottest (ignored_gpus : list string) (lines : list string) :
  forall st st',
    drain_queue ignored_gpus lines st = OK st' ->
    temp (fst st) <= temp (fst st')
    /\ (forall line t,
           In line lines -> is_ignored ignored_gpus line = false ->
           temperature_field (clean_fields line) = OK t ->
           t <= temp (fst st'))
    /\ (fst st' = fst st
        \/ exists line,
            In line lines /\ is_ignored ignored_gpus line = false
            /\ read_record (clean_fields line) = OK (fst st')).
Proof.
  induction lines as [|line lines IH]; intros st st' H.
  - simpl in H. inversion H; subst.
    split; [lia|]. split; [intros ? ? []|left; reflexivity].
  - cbn [drain_queue] in H.
    apply bind_ok_inv in H as (st1 & Hline & Hrest).
    destruct (IH _ _ Hrest) as (Hle & Hall & Hwho).
    destruct (is_ignored ignored_gpus line) eqn:Hig.
    + rewrite drain_line_ignored in Hline by exact Hig.
      inversion Hline; subst st1.
      split; [exact Hle|]. split.
      * intros l t [Heq|Hin] Hl Ht; [subst; congruence|].
        exact (Hall l t Hin Hl Ht).
      * destruct Hwho as [Hsame|(l & Hin & Hl & Hr)]; [left; exact Hsame|].
        right. exists l. split; [right; exact Hin|]. split; assumption.
    + destruct (drain_line_inv _ _ _ _ Hig Hline) as (t & Ht & Hcase).
      assert (Hstep : temp (fst st) <= temp (fst st1) /\ t <= temp (fst st1)).
      { destruct Hcase as [(Hlt & _ & Htemp)|(Hle' & Hsame)].
        - rewrite Htemp. lia.
        - rewrite Hsame. lia. }
      split; [lia|]. split.
      * intros l t' [Heq|Hin] Hl Ht'.
        -- subst l. rewrite Ht in Ht'. inversion Ht'; subst. lia.
        -- exact (Hall l t' Hin Hl Ht').
      * destruct Hwho as [Hsame|(l & Hin & Hl & Hr)].
        -- destruct Hcase as [(_ & Hr & _)|(_ & Hsame')].
           ++ right. exists line. split; [left; reflexivity|].
              split; [exact Hig|]. rewrite Hsame. exact Hr.
           ++ left. rewrite Hsame. exact Hsame'.
        -- right. exists l. split; [right; exact Hin|]. split; assumption.
Qed.

(** X17.  When a non-empty batch is drained without an exception, the
    aggregate temperature is at least 0 and at least the temperature of
    every record that is not ignored, and the aggregate is either the zero
    reading or the reading of one such record of the batch. *)
Theorem aggregate_is_the_hottest_record :
  forall ignored_gpus lines stored highest stored',
    lines <> [] ->
    aggregate_tick ignored_gpus lines stored = OK (highest, stored') ->
    0 <= temp highest
    /\ (forall line t,
           In line lines -> is_ignored ignored_gpus line = false ->
           temperature_field (clean_fields line) = OK t ->
           t <= temp highest)
    /\ (highest = zero_reading
        \/ exists line,
            In line lines /\ is_ignored ignored_gpus line = false
            /\ read_record (clean_fields line) = OK highest).
Proof.
  intros ig lines stored highest stored' Hne H.
  unfold aggregate_tick in H. destruct lines as [|l ls]; [congruence|].
  exact (drain_queue_hottest ig (l :: ls) _ _ H).
Qed.

Lemma aggregate_is_the_hottest_record_witness :
  0 <= temp {| util := 50; temp := 90; idx := 1; name := "Tesla P40"%string |}
  /\ (forall line t,
         In line ["0, Tesla K80, 70, 15"%string; "1, Tesla P40, 90, 50"%string] ->
         is_ignored [] line = false ->
         temperature_field (clean_fields line) = OK t ->
         t <= temp {| util := 50; temp := 90; idx := 1;
                      name := "Tesla P40"%string |})
  /\ ({| util := 50; temp := 90; idx := 1; name := "Tesla P40"%string |}
      = zero_reading
      \/ exists line,
          In line ["0, Tesla K80, 70, 15"%string; "1, Tesla P40, 90, 50"%string]
          /\ is_ignored [] line = false
          /\ read_record (clean_fields line)
             = OK {| util := 50; temp := 90; idx := 1;
                     name := "Tesla P40"%string |}).
Proof.
  apply (aggregate_is_the_hottest_record []
           ["0, Tesla K80, 70, 15"%string; "1, Tesla P40, 90, 50"%string]
           zero_reading
           {| util := 50; temp := 90; idx := 1; name := "Tesla P40"%string |}
           {| util := 50; temp := 90; idx := 1; name := "Tesla P40"%string |}).
  - discriminate.
  - reflexivity.
Defined.

(** ** Splitting and stripping the fields of a line *)

Lemma string_app_assoc (a b c : string) :
  String.append (String.append a b) c = String.append a (String.append b c).
Proof.
  induction a as [|x a IH]; simpl; [reflexivity|].
  rewrite IH. reflexivity.
Qed.

Lemma string_app_empty (a : string) : String.append a EmptyString = a.
Proof.
  induction a as [|x a IH]; simpl; [reflexivity|].
  rewrite IH. reflexivity.
Qed.

Lemma comma_free_app (a b : string) :
  comma_free a -> comma_free b -> comma_free (String.append a b).
Proof.
  unfold comma_free. induction a as [|x a IH]; simpl; intros Ha Hb.
  - exact Hb.
  - apply andb_true_iff in Ha as [Hx Ha].
    rewrite Hx. simpl. apply IH; assumption.
Qed.

Lemma split_on_comma_free (f : string) :
  comma_free f -> split_on comma f = [f].
Proof.
  unfold comma_free. induction f as [|x f IH]; simpl; intros H.
  - reflexivity.
  - apply andb_true_iff in H as [Hx H].
    apply negb_true_iff in Hx. rewrite Hx.
    rewrite (IH H). reflexivity.
Qed.

Lemma split_on_field (f rest : string) :
  comma_free f ->
  split_on comma (String.append f (String comma rest))
  = f :: split_on comma rest.
Proof.
  unfold comma_free. induction f as [|x f IH]; simpl; intros H.
  - reflexivity.
  - apply andb_true_iff in H as [Hx H].
    apply negb_true_iff in Hx. rewrite Hx.
    rewrite (IH H). reflexivity.
Qed.

Lemma lstrip_only (chars : list ascii) (pre x : string) :
  only_chars chars pre ->
  lstrip chars (String.append pre x) = lstrip chars x.
Proof.
  unfold only_chars. induction pre as [|c pre IH]; simpl; intros H.
  - reflexivity.
  - apply andb_true_iff in H as [Hc H].
    rewrite Hc. apply IH; exact H.
Qed.

Lemma rstrip_only (chars : list ascii) (suf : string) :
  only_chars chars suf -> rstrip chars suf = EmptyString.
Proof.
  unfold only_chars. induction suf as [|c suf IH]; simpl; intros H.
  - reflexivity.
  - apply andb_true_iff in H as [Hc H].
    rewrite (IH H), Hc. reflexivity.
Qed.

Lemma rstrip_app (chars : list ascii) (x suf : string) :
  only_chars chars suf ->
  rstrip chars (String.append x suf) = rstrip chars x.
Proof.
  intros H. induction x as [|c x IH]; simpl.
  - apply rstrip_only; exact H.
  - rewrite IH. reflexivity.
Qed.

Lemma lstrip_length (chars : list ascii) (s : string) :
  (String.length (lstrip chars s) <= String.length s)%nat.
Proof.
  induction s as [|c s IH]; simpl; [lia|].
  destruct (char_in chars c); simpl; lia.
Qed.

Lemma lstrip_fixed_head (chars : list ascii) (c : ascii) (f : string) :
  lstrip chars (String c f) = String c f -> char_in chars c = false.
Proof.
  simpl. destruct (char_in chars c); [|reflexivity].
  intros H. pose proof (lstrip_length chars f) as Hlen.
  rewrite H in Hlen. simpl in Hlen. lia.
Qed.

Lemma strip_padded (chars : list ascii) (pre f suf : string) :
  only_chars chars pre -> only_chars chars suf -> trimmed chars f ->
  strip chars (String.append pre (String.append f suf)) = f.
Proof.
  intros Hpre Hsuf [Hl Hr]. unfold strip.
  rewrite lstrip_only by exact Hpre.
  destruct f as [|c f].
  - simpl. rewrite <- (string_app_empty suf).
    rewrite lstrip_only by exact Hsuf. reflexivity.
  - pose proof (lstrip_fixed_head chars c f Hl) as Hc.
    change (String.append (String c f) suf) with (String c (String.append f suf)).
    cbn [lstrip]. rewrite Hc.
    change (String c (String.append f suf)) with (String.append (String c f) suf).
    rewrite rstrip_app by exact Hsuf. exact Hr.
Qed.

Lemma split_strip_join (chars : list ascii) (pad suf : string) :
  only_chars chars pad -> comma_free pad ->
  only_chars chars suf -> comma_free suf ->
  forall fields pre,
    fields <> [] ->
    Forall comma_free fields ->
    Forall (trimmed chars) fields ->
    only_chars chars pre -> comma_free pre ->
    map (strip chars)
        (split_on comma
           (String.append pre
              (String.append (join (String comma pad) fields) suf)))
    = fields.
Proof.
  intros Hpad Hpadc Hsuf Hsufc.
  induction fields as [|f rest IH]; intros pre Hne Hcf Htr Hpre Hprec;
    [congruence|].
  inversion Hcf as [|? ? Hf Hrest]; subst.
  inversion Htr as [|? ? Hft Hrestt]; subst.
  destruct rest as [|g rest].
  - cbn [join].
    rewrite split_on_comma_free
      by (apply comma_free_app; [assumption|apply comma_free_app; assumption]).
    cbn [map]. rewrite strip_padded by assumption. reflexivity.
  - change (join (String comma pad) (f :: g :: rest))
      with (String.append f
              (String.append (String comma pad)
                 (join (String comma pad) (g :: rest)))).
    rewrite (string_app_assoc f).
    rewrite <- (string_app_assoc pre f).
    rewrite (string_app_assoc (String comma pad)).
    change (String.append (String comma pad)
              (String.append (join (String comma pad) (g :: rest)) suf))
      with (String comma
              (String.append pad
                 (String.append (join (String comma pad) (g :: rest)) suf))).
    rewrite split_on_field by (apply comma_free_app; assumption).
    cbn [map].
    rewrite (IH pad) by (assumption || discriminate).
    f_equal.
    rewrite <- (string_app_empty (String.append pre f)).
    rewrite string_app_assoc.
    apply strip_padded; [assumption|reflexivity|assumption].
Qed.

Lemma blanks_comma_free (pad : string) :
  only_chars [space] pad -> comma_free pad.
Proof.
  unfold only_chars, comma_free.
  induction pad as [|c pad IH]; simpl; intros H; [reflexivity|].
  apply andb_true_iff in H as [Hc H]. rewrite (IH H), andb_true_r.
  unfold char_in in Hc. simpl in Hc. rewrite orb_false_r in Hc.
  apply Ascii.eqb_eq in Hc. subst c. reflexivity.
Qed.

(** X18.  A line in nvidia-smi's csv format is split back into its fields:
    when no field holds a comma and none starts or ends with a blank or a
    newline, the cleaned fields of the line are the fields written. *)
Theorem clean_fields_recovers_csv_fields :
  forall fields,
    fields <> [] ->
    Forall comma_free fields ->
    Forall (trimmed [space; newline]) fields ->
    clean_fields (csv_line fields) = fields.
Proof.
  intros fields Hne Hcf Htr. unfold clean_fields, csv_line.
  exact (split_strip_join [space; newline]
           (String space EmptyString) (String newline EmptyString)
           eq_refl eq_refl eq_refl eq_refl
           fields EmptyString Hne Hcf Htr eq_refl eq_refl).
Qed.

Lemma clean_fields_recovers_csv_fields_witness :
  clean_fields (csv_line ["0"; "Tesla K80"; "50"; "5"]%string)
  = ["0"; "Tesla K80"; "50"; "5"]%string.
Proof.
  apply (clean_fields_recovers_csv_fields ["0"; "Tesla K80"; "50"; "5"]%string).
  - discriminate.
  - repeat constructor.
  - repeat constructor.
Defined.

(** X19.  The value of [--ignore-gpus] is read back as the list of its
    entries: entries without commas or surrounding blanks, separated by a
    comma and any number of blanks, give exactly the entries. *)
Theorem ignore_list_recovers_entries :
  forall p pad entries,
    only_chars [space] pad ->
    entries <> [] ->
    Forall comma_free entries ->
    Forall (trimmed [space]) entries ->
    ignore_gpus p = Some (join (String comma pad) entries) ->
    parse_ignored_gpus p = entries.
Proof.
  intros p pad entries Hpad Hne Hcf Htr Hp.
  unfold parse_ignored_gpus. rewrite Hp.
  rewrite <- (string_app_empty (join (String comma pad) entries)).
  pose proof (blanks_comma_free pad Hpad) as Hpadc.
  exact (split_strip_join [space] pad EmptyString
           Hpad Hpadc eq_refl eq_refl
           entries EmptyString Hne Hcf Htr eq_refl eq_refl).
Qed.

Lemma ignore_list_recovers_entries_witness :
  parse_ignored_gpus
    {| gpu_max_temp_threshold := 80;
       gpu_min_fan_speed_target := 50;
       gpu_idle_temp_target := 45;
       gpu_auto_handoff_interval := 10;
       gpu_idle_condition_threshold := 0;
       gpu_activate_fan_control_threshold := -1;
       ignore_gpus := Some "1, 3"%string |}
  = ["1"; "3"]%string.
Proof.
  apply (ignore_list_recovers_entries _ " "%string ["1"; "3"]%string).
  - reflexivity.
  - discriminate.
  - repeat constructor.
  - repeat constructor.
  - reflexivity.
Defined.

(** X20.  The ignore list and the drain agree on what an index is: with
    [--ignore-gpus] given as entries separated by a comma and any number of
    blanks, a record in nvidia-smi's csv format is skipped exactly when its
    index field is one of the entries. *)
Theorem record_ignored_iff_index_listed :
  forall p pad entries index_field other_fields,
    only_chars [space] pad ->
    entries <> [] ->
    Forall comma_free entries ->
    Forall (trimmed [space]) entries ->
    ignore_gpus p = Some (join (String comma pad) entries) ->
    Forall comma_free (index_field :: other_fields) ->
    Forall (trimmed [space; newline]) (index_field :: other_fields) ->
    is_ignored (parse_ignored_gpus p) (csv_line (index_field :: other_fields))
    = str_in index_field entries.
Proof.
  intros p pad entries i rest Hpad Hne Hcf Htr Hp Hcf' Htr'.
  assert (Hline : clean_fields (csv_line (i :: rest)) = i :: rest).
  { unfold clean_fields, csv_line.
    refine (split_strip_join [space; newline]
              (String space EmptyString) (String newline EmptyString)
              eq_refl eq_refl eq_refl eq_refl
              (i :: rest) EmptyString _ Hcf' Htr' eq_refl eq_refl).
    discriminate. }
  unfold is_ignored. rewrite Hline. f_equal.
  unfold parse_ignored_gpus. rewrite Hp.
  rewrite <- (string_app_empty (join (String comma pad) entries)).
  exact (split_strip_join [space] pad EmptyString
           Hpad (blanks_comma_free pad Hpad) eq_refl eq_refl
           entries EmptyString Hne Hcf Htr eq_refl eq_refl).
Qed.

Lemma record_ignored_iff_index_listed_witness :
  is_ignored
    (parse_ignored_gpus
       {| gpu_max_temp_threshold := 80;
          gpu_min_fan_speed_target := 50;
          gpu_idle_temp_target := 45;
          gpu_auto_handoff_interval := 10;
          gpu_idle_condition_threshold := 0;
          gpu_activate_fan_control_threshold := -1;
          ignore_gpus := Some "1, 3"%string |})
    (csv_line ("3" :: ["Tesla P40"; "90"; "50"])%string)
  = str_in "3"%string ["1"; "3"]%string.
Proof.
  apply (record_ignored_iff_index_listed _ " "%string ["1"; "3"]%string
           "3"%string ["Tesla P40"; "90"; "50"]%string).
  - reflexivity.
  - discriminate.
  - repeat constructor.
  - repeat constructor.
  - reflexivity.
  - repeat constructor.
  - repeat constructor.
Defined.
